(** * Bookmark Manager: the Express API handlers and their validation contract

    Shallow embedding of the server module (the file that declares
    [let bookmarks = [...]] and the routes [GET /bookmarks],
    [GET /bookmarks/metadata], [POST /bookmarks], [PUT /bookmarks/:id] and
    [DELETE /bookmarks/:id]).

    - Request bodies and query values are JSON values; a JavaScript
      [undefined] is [None] in an [option json].
    - A thrown exception is [Throw] in the [result] monad; every handler is
      wrapped in the source's [try { ... } catch { 500 }].
    - The module-level array [bookmarks] is threaded through the handlers:
      a handler maps the store before the request to a response and the
      store after it.
    - [uuidv4()] and [new Date().toISOString()] are inputs of the handler
      that calls them.
    - A text is a [string], one character per code unit; [props] lists the
      own properties of a parsed object, one entry per key.
    - The rate limiter mounted on [/bookmarks] runs before the handlers and
      is not part of them. *)

From Stdlib Require Import PrimFloat.
From stdpp Require Import base option list sets strings.

Set Default Proof Using "Type".
Set Warnings "-clear-no-such-hyp".
Local Open Scope string_scope.
Local Open Scope list_scope.
Local Open Scope nat_scope.

(** ** JSON values as delivered by [express.json()] and the query parser *)

#[warnings="-register-all"] Inductive json :=
| JNull
| JBool (b : bool)
| JNum (n : float)
| JStr (s : string)
| JArr (elems : list json)
| JObj (props : list (string * json)).

(** ** Exceptions *)

Inductive result (A : Type) :=
| Ret (a : A)
| Throw.
Arguments Ret {A} a.
Arguments Throw {A}.

#[global] Instance result_ret : MRet result := @Ret.
#[global] Instance result_bind : MBind result :=
  λ A B f m, match m with Ret a => f a | Throw => Throw end.

(** ** The parts of the JavaScript runtime the handlers call

    These are library functions of the platform, not code of the
    repository; the handlers are verified for every implementation of
    them. *)

Class Runtime := {
  (** [String.prototype.toLowerCase] *)
  toLowerCase : string → string;
  (** whether [new URL(v)] returns (rather than throws) *)
  URL_parses : json → bool;
  (** the relational comparison [w > n] for a value [w] read from an own
      [length] property of a JSON object; it coerces [w] to a number and
      may throw while doing so *)
  gt_coerced : json → nat → result bool;
  (** capture group 1 of the first match of
      [/<title[^>]*>([^<]+)<\/title>/i] in a page, if there is one *)
  match_title : string → option string;
  (** [String.prototype.trim] *)
  trim : string → string;
}.

(** ** JavaScript operators on JSON-born values *)

(** [ToBoolean]: [null], [false], [0], [-0], [NaN] and [""] are falsy. *)
Definition truthy (v : json) : bool :=
  match v with
  | JNull => false
  | JBool b => b
  | JNum n => negb (PrimFloat.eqb n 0%float || PrimFloat.is_nan n)
  | JStr s => negb (String.eqb s "")
  | JArr _ | JObj _ => true
  end.

(** [!!v] for a possibly [undefined] value. *)
Definition truthy_opt (v : option json) : bool :=
  match v with
  | Some w => truthy w
  | None => false
  end.

(** [v || undefined] *)
Definition or_undefined (v : option json) : option json :=
  if truthy_opt v then v else None.

(** Own data property of a parsed JSON object. *)
Fixpoint own_property (k : string) (props : list (string * json)) : option json :=
  match props with
  | [] => None
  | (k', v) :: rest => if String.eqb k k' then Some v else own_property k rest
  end.

(** [a.includes(needle)] on a string: substring test. *)
Fixpoint str_includes (needle s : string) : bool :=
  String.prefix needle s ||
  match s with
  | EmptyString => false
  | String _ rest => str_includes needle rest
  end.

(** ** The data model *)

(** A stored bookmark object.  [None] is a property whose value is
    [undefined]. *)
Record bookmark := Bookmark {
  bk_id : string;
  bk_url : option json;
  bk_title : option json;
  bk_description : option json;
  bk_tags : option json;
  bk_createdAt : string;
}.

(** [const { url, title, description, tags } = req.body] *)
Record payload := Payload {
  url : option json;
  title : option json;
  description : option json;
  tags : option json;
}.

(** What a handler hands to [res.json]. *)
Inductive data :=
| One (b : bookmark)
| Many (bs : list bookmark)
| Title (t : string).

Inductive response :=
| Success (status : nat) (d : data)
| Failure (status : nat) (error : string).

Definition status_of (r : response) : nat :=
  match r with
  | Success s _ | Failure s _ => s
  end.

(** [JSON.stringify] of a bookmark: a property whose value is [undefined]
    is left out of the object. *)
Definition field_json (k : string) (v : option json) : list (string * json) :=
  match v with
  | Some w => [(k, w)]
  | None => []
  end.

Definition bookmark_json (b : bookmark) : json :=
  JObj ([("id", JStr (bk_id b))]
        ++ field_json "url" (bk_url b)
        ++ field_json "title" (bk_title b)
        ++ field_json "description" (bk_description b)
        ++ field_json "tags" (bk_tags b)
        ++ [("createdAt", JStr (bk_createdAt b))]).

Definition data_json (d : data) : json :=
  match d with
  | One b => bookmark_json b
  | Many bs => JArr (bookmark_json <$> bs)
  | Title t => JObj [("title", JStr t)]
  end.

(** The status code and the JSON document put on the wire. *)
Definition wire (r : response) : nat * json :=
  match r with
  | Success s d => (s, JObj [("success", JBool true); ("data", data_json d)])
  | Failure s e => (s, JObj [("success", JBool false); ("error", JStr e)])
  end.

(** The bookmarks a response carries. *)
Definition returned (r : response) : list bookmark :=
  match r with
  | Success _ (One b) => [b]
  | Success _ (Many bs) => bs
  | _ => []
  end.

(** ** In-memory storage: the seed of [let bookmarks = [...]]

    [ids k] and [times k] are the results of the k-th [uuidv4()] and
    [new Date().toISOString()] evaluated while the module loads. *)
Definition seed (ids times : nat → string) : list bookmark :=
  [ Bookmark (ids 0) (Some (JStr "https://react.dev"))
      (Some (JStr "React Documentation"))
      (Some (JStr "Official React documentation and tutorials"))
      (Some (JArr [JStr "react"; JStr "javascript"; JStr "frontend"]))
      (times 0);
    Bookmark (ids 1) (Some (JStr "https://nodejs.org"))
      (Some (JStr "Node.js"))
      (Some (JStr "JavaScript runtime built on Chrome's V8 engine"))
      (Some (JArr [JStr "nodejs"; JStr "javascript"; JStr "backend"]))
      (times 1);
    Bookmark (ids 2) (Some (JStr "https://tailwindcss.com"))
      (Some (JStr "Tailwind CSS"))
      (Some (JStr "A utility-first CSS framework"))
      (Some (JArr [JStr "css"; JStr "tailwind"; JStr "frontend"]))
      (times 2);
    Bookmark (ids 3) (Some (JStr "https://expressjs.com"))
      (Some (JStr "Express.js"))
      (Some (JStr "Fast, unopinionated web framework for Node.js"))
      (Some (JArr [JStr "express"; JStr "nodejs"; JStr "backend"]))
      (times 3);
    Bookmark (ids 4) (Some (JStr "https://vitejs.dev"))
      (Some (JStr "Vite"))
      (Some (JStr "Next generation frontend tooling"))
      (Some (JArr [JStr "vite"; JStr "build-tool"; JStr "frontend"]))
      (times 4) ].

(** ** The handlers *)

Section Handlers.
Context {rt : Runtime}.

(** [const isValidUrl = (url) => { try { new URL(url); return true; }
    catch { return false; } }].  [new URL(undefined)] parses the text
    "undefined", which has no scheme, and throws. *)
Definition isValidUrl (url : option json) : bool :=
  match url with
  | Some v => if URL_parses v then true else false
  | None => false
  end.

(** [const { url, title, description, tags } = req.body].  Reading a
    property of [null] throws; an array or a primitive has none of the four
    properties. *)
Definition destructure (body : json) : result payload :=
  match body with
  | JNull => Throw
  | JObj props =>
      Ret (Payload (own_property "url" props) (own_property "title" props)
             (own_property "description" props) (own_property "tags" props))
  | _ => Ret (Payload None None None None)
  end.

(** [v.length > n].  Strings and arrays have their length; a number or a
    boolean has no [length], and [undefined > n] is false; an object has
    the [length] it was sent with, if any. *)
Definition length_gt (v : option json) (n : nat) : result bool :=
  match v with
  | None | Some JNull => Throw
  | Some (JStr s) => Ret (n <? String.length s)
  | Some (JArr elems) => Ret (n <? length elems)
  | Some (JObj props) =>
      match own_property "length" props with
      | Some w => gt_coerced w n
      | None => Ret false
      end
  | Some (JNum _) | Some (JBool _) => Ret false
  end.

(** [tags.some(tag => tag !== tag.toLowerCase())].  [some] stops at the
    first element for which the callback is true; on an element that is
    not a string, [tag.toLowerCase] is not a function and the call
    throws. *)
Fixpoint some_not_lowercase (elems : list json) : result bool :=
  match elems with
  | [] => Ret false
  | JStr tag :: rest =>
      if negb (String.eqb tag (toLowerCase tag)) then Ret true
      else some_not_lowercase rest
  | _ :: _ => Throw
  end.

(** [errors.push(msg)] *)
Definition push (errors : list string) (msg : string) : list string :=
  errors ++ [msg].

(** The block [if (!title) {...} else if (title.length > 200) {...}],
    textually the same in POST and PUT. *)
Definition check_title (title : option json) (errors : list string)
  : result (list string) :=
  if negb (truthy_opt title) then Ret (push errors "Title is required")
  else
    long ← length_gt title 200;
    Ret (if long : bool then push errors "Title must be max 200 characters"
         else errors).

(** [description && description.length > 500] *)
Definition check_description (description : option json) (errors : list string)
  : result (list string) :=
  if truthy_opt description then
    long ← length_gt description 500;
    Ret (if long : bool then push errors "Description must be max 500 characters"
         else errors)
  else Ret errors.

(** The block [if (!Array.isArray(tags)) {...} else if (tags.length > 5)
    {...} else {...}], textually the same in POST and PUT;
    [Array.isArray] holds of the arrays only. *)
Definition check_tags (tags : option json) (errors : list string)
  : result (list string) :=
  match tags with
  | Some (JArr elems) =>
      if 5 <? length elems then Ret (push errors "Maximum 5 tags allowed")
      else
        hasUppercase ← some_not_lowercase elems;
        Ret (if hasUppercase : bool then push errors "Tags must be lowercase"
             else errors)
  | _ => Ret (push errors "Tags must be an array")
  end.

(** The validation of [app.post('/bookmarks')]: the [errors] array after
    the four checks. *)
Definition validate_create (p : payload) : result (list string) :=
  let errors := [] in
  let errors :=
    if negb (truthy_opt (url p)) then push errors "URL is required"
    else if negb (isValidUrl (url p)) then push errors "URL must be valid"
    else errors in
  errors ← check_title (title p) errors;
  errors ← check_description (description p) errors;
  if truthy_opt (tags p) then check_tags (tags p) errors else Ret errors.

(** The validation of [app.put('/bookmarks/:id')]. *)
Definition validate_update (p : payload) : result (list string) :=
  let errors := [] in
  let errors :=
    if bool_decide (url p ≠ None) then
      if negb (isValidUrl (url p)) then push errors "URL must be valid"
      else errors
    else errors in
  errors ← (if bool_decide (title p ≠ None) then check_title (title p) errors
            else Ret errors);
  errors ← (if bool_decide (description p ≠ None)
            then check_description (description p) errors
            else Ret errors);
  if bool_decide (tags p ≠ None) then check_tags (tags p) errors else Ret errors.

(** [try { ... } catch (error) { res.status(500).json(...) }]: nothing a
    handler does before its last statement changes [bookmarks], so the
    store of the failed request is the store it started with. *)
Definition try_catch (bookmarks : list bookmark)
    (body : result (response * list bookmark)) : response * list bookmark :=
  match body with
  | Ret r => r
  | Throw => (Failure 500 "Internal server error", bookmarks)
  end.

(** [app.post('/bookmarks', ...)] *)
Definition post_bookmarks (uuid now : string) (body : json)
    (bookmarks : list bookmark) : response * list bookmark :=
  try_catch bookmarks (
    p ← destructure body;
    errors ← validate_create p;
    if 0 <? length errors then
      Ret (Failure 400 (String.concat ", " errors), bookmarks)
    else
      let newBookmark :=
        {| bk_id := uuid;
           bk_url := url p;
           bk_title := title p;
           bk_description := or_undefined (description p);
           bk_tags := or_undefined (tags p);
           bk_createdAt := now |} in
      Ret (Success 201 (One newBookmark), bookmarks ++ [newBookmark])).

(** [bookmarks.findIndex(b => b.id === id)] together with
    [bookmarks[bookmarkIndex]]. *)
Definition findIndex (id : string) (bookmarks : list bookmark)
  : option (nat * bookmark) :=
  list_find (λ b, bk_id b = id) bookmarks.

(** [x !== undefined ? x : old] *)
Definition supplied_or (x old : option json) : option json :=
  if bool_decide (x ≠ None) then x else old.

(** [app.put('/bookmarks/:id', ...)] *)
Definition put_bookmarks_id (id : string) (body : json)
    (bookmarks : list bookmark) : response * list bookmark :=
  try_catch bookmarks (
    p ← destructure body;
    match findIndex id bookmarks with
    | None => Ret (Failure 404 "Bookmark not found", bookmarks)
    | Some (bookmarkIndex, old) =>
        errors ← validate_update p;
        if 0 <? length errors then
          Ret (Failure 400 (String.concat ", " errors), bookmarks)
        else
          let updatedBookmark :=
            {| bk_id := bk_id old;
               bk_url := supplied_or (url p) (bk_url old);
               bk_title := supplied_or (title p) (bk_title old);
               bk_description := supplied_or (description p) (bk_description old);
               bk_tags := supplied_or (tags p) (bk_tags old);
               bk_createdAt := bk_createdAt old |} in
          Ret (Success 200 (One updatedBookmark),
               <[bookmarkIndex := updatedBookmark]> bookmarks)
    end).

(** [app.delete('/bookmarks/:id', ...)]; [splice(bookmarkIndex, 1)]
    removes the element at that index. *)
Definition delete_bookmarks_id (id : string) (bookmarks : list bookmark)
  : response * list bookmark :=
  try_catch bookmarks (
    match findIndex id bookmarks with
    | None => Ret (Failure 404 "Bookmark not found", bookmarks)
    | Some (bookmarkIndex, deletedBookmark) =>
        Ret (Success 200 (One deletedBookmark), delete bookmarkIndex bookmarks)
    end).

(** [tag.toLowerCase()] for a query value: a string, or (from the
    extended query syntax) an array or an object, which have no such
    method. *)
Definition call_toLowerCase (tag : json) : result string :=
  match tag with
  | JStr s => Ret (toLowerCase s)
  | _ => Throw
  end.

(** [x.includes(needle)] for a truthy [x]: element test on an array
    (a string needle equals only an equal string element), substring test
    on a string, not a function on anything else. *)
Definition includes (x : option json) (needle : string) : result bool :=
  match x with
  | Some (JArr elems) =>
      Ret (existsb (λ e, match e with
                         | JStr s => String.eqb s needle
                         | _ => false
                         end) elems)
  | Some (JStr s) => Ret (str_includes needle s)
  | _ => Throw
  end.

(** The callback of the filter:
    [bookmark.tags && bookmark.tags.includes(tag.toLowerCase())]. *)
Definition tag_matches (tag : json) (b : bookmark) : result bool :=
  if truthy_opt (bk_tags b) then
    needle ← call_toLowerCase tag;
    includes (bk_tags b) needle
  else Ret false.

(** [Array.prototype.filter] with a callback that may throw. *)
Fixpoint filter_result {A} (f : A → result bool) (l : list A) : result (list A) :=
  match l with
  | [] => Ret []
  | x :: rest =>
      keep ← f x;
      kept ← filter_result f rest;
      Ret (if keep : bool then x :: kept else kept)
  end.

(** [app.get('/bookmarks', ...)]; the handler does not assign
    [bookmarks]. *)
Definition get_bookmarks (tag : option json) (bookmarks : list bookmark)
  : response :=
  let result :=
    match tag with
    | Some t => if truthy t then filter_result (tag_matches t) bookmarks
                else Ret bookmarks
    | None => Ret bookmarks
    end in
  match result with
  | Ret result => Success 200 (Many result)
  | Throw => Failure 500 "Internal server error"
  end.

(** What the awaited [fetch(url, ...)] and [response.text()] deliver. *)
Inductive fetched :=
| FetchThrows
| FetchText (html : string).

(** [fetchMetadata]: the page title, or [null] ([None]). *)
Definition fetchMetadata (page : fetched) : option string :=
  match page with
  | FetchThrows => None
  | FetchText html =>
      let title :=
        match match_title html with
        | Some group1 => trim group1
        | None => ""
        end in
      if String.eqb title "" then None else Some title
  end.

(** [app.get('/bookmarks/metadata', ...)] *)
Definition get_bookmarks_metadata (url : option json) (page : fetched)
  : response :=
  if negb (truthy_opt url) || negb (isValidUrl url) then
    Failure 400 "Valid URL is required"
  else
    let title := fetchMetadata page in
    Success 200 (Title (match title with
                        | Some t => t
                        | None => "Unable to fetch title"
                        end)).

End Handlers.

(** ** A sample runtime

    Used to run the handlers on concrete requests.  On the inputs of the
    examples below it agrees with Node.js: [toLowerCase] on ASCII text,
    [new URL] on [http(s)://host] texts and on texts without a scheme. *)

Module Sample.

Definition lower_char (c : Ascii.ascii) : Ascii.ascii :=
  let n := Ascii.nat_of_ascii c in
  if (65 <=? n) && (n <=? 90) then Ascii.ascii_of_nat (n + 32) else c.

Fixpoint ascii_lower (s : string) : string :=
  match s with
  | EmptyString => EmptyString
  | String c rest => String (lower_char c) (ascii_lower rest)
  end.

Definition http_url (v : json) : bool :=
  match v with
  | JStr s =>
      (String.prefix "https://" s && (8 <? String.length s))
      || (String.prefix "http://" s && (7 <? String.length s))
  | _ => false
  end.

Fixpoint float_of_nat (n : nat) : float :=
  match n with
  | 0 => PrimFloat.zero
  | S k => PrimFloat.add (float_of_nat k) PrimFloat.one
  end.

Definition gt_number (w : json) (n : nat) : result bool :=
  match w with
  | JNum x => Ret (PrimFloat.ltb (float_of_nat n) x)
  | _ => Ret false
  end.

Definition runtime : Runtime := {|
  toLowerCase := ascii_lower;
  URL_parses := http_url;
  gt_coerced := gt_number;
  match_title := λ _, None;
  trim := λ s, s;
|}.

(** ['a'.repeat(n)] *)
Fixpoint repeat_a (n : nat) : string :=
  match n with
  | 0 => ""
  | S k => String (Ascii.ascii_of_nat 97) (repeat_a k)
  end.

(** The two bookmarks of the repository's filter test. *)
Definition two_bookmarks : list bookmark :=
  [ Bookmark "1" (Some (JStr "https://example.com")) (Some (JStr "Example"))
      None (Some (JArr [JStr "react"; JStr "javascript"])) "2024-01-01T00:00:00.000Z";
    Bookmark "2" (Some (JStr "https://test.com")) (Some (JStr "Test"))
      None (Some (JArr [JStr "nodejs"])) "2024-01-01T00:00:00.000Z" ].

(** A create request on the sample runtime. *)
Definition post : json → list bookmark → response * list bookmark :=
  post_bookmarks (rt:=runtime) "u" "2024-01-02T00:00:00.000Z".

Definition example_com : string * json := ("url", JStr "https://example.com").

Definition ids (k : nat) : string := "id-" +:+ String (Ascii.ascii_of_nat (48 + k)) "".
Definition times (k : nat) : string := "2024-01-01T00:00:00.000Z".

End Sample.

(** ** Requests that change the store, and the states they reach *)

Inductive request :=
| Create (uuid now : string) (body : json)
| Update (id : string) (body : json)
| Delete (id : string).

Definition step {rt : Runtime} (req : request) (bookmarks : list bookmark)
  : list bookmark :=
  match req with
  | Create uuid now body => (post_bookmarks uuid now body bookmarks).2
  | Update id body => (put_bookmarks_id id body bookmarks).2
  | Delete id => (delete_bookmarks_id id bookmarks).2
  end.

Inductive reachable {rt : Runtime} (ids times : nat → string)
  : list bookmark → Prop :=
| reach_seed : reachable ids times (seed ids times)
| reach_step req bookmarks :
    reachable ids times bookmarks →
    reachable ids times (step req bookmarks).

(** * Vocabulary of the properties *)

Section Vocabulary.
Context {rt : Runtime}.

(** [merged supplied old new]: the field holds the supplied value when
    there is one, and the old value otherwise. *)
Definition merged (supplied old new : option json) : Prop :=
  match supplied with
  | Some v => new = Some v
  | None => new = old
  end.

(** The identity of the stored records: their ids and creation times, in
    collection order. *)
Definition identities (bookmarks : list bookmark) : list (string * string) :=
  (λ b, (bk_id b, bk_createdAt b)) <$> bookmarks.

(** The messages of the url block of PUT. *)
Definition update_url_errors (p : payload) : list string :=
  if bool_decide (url p ≠ None) then
    if negb (isValidUrl (url p)) then ["URL must be valid"] else []
  else [].

(** The value a serialised bookmark shows for a property, if it shows
    the property at all. *)
Definition shown (k : string) (b : bookmark) : option json :=
  match bookmark_json b with
  | JObj props => own_property k props
  | _ => None
  end.

(** The fetch failed: the request threw (network error, timeout), or the
    page has no title element, or its title is blank. *)
Definition fetch_failed (page : fetched) : Prop :=
  match page with
  | FetchThrows => True
  | FetchText html =>
      match_title html = None
      ∨ ∃ group1, match_title html = Some group1 ∧ trim group1 = ""
  end.

(** The bookmark has a tags sequence and [needle] is one of its
    elements. *)
Definition has_tag (needle : string) (b : bookmark) : bool :=
  match bk_tags b with
  | Some (JArr elems) =>
      existsb (λ e, match e with
                    | JStr s => String.eqb s needle
                    | _ => false
                    end) elems
  | _ => false
  end.

(** The data model's typing of the tags field: absent, or a sequence. *)
Definition tags_are_sequences (bookmarks : list bookmark) : Prop :=
  ∀ b, b ∈ bookmarks → bk_tags b = None ∨ ∃ elems, bk_tags b = Some (JArr elems).

(** The stored optional field is the payload's when that is truthy, and
    is absent otherwise. *)
Definition kept_if_truthy (supplied stored : option json) : Prop :=
  if truthy_opt supplied then stored = supplied else stored = None.

(** The tags invariant of the data model on one bookmark: a tags field is
    a sequence of at most five strings, each its own lowercase form. *)
Definition tags_ok (b : bookmark) : Prop :=
  match bk_tags b with
  | None => True
  | Some v =>
      ∃ elems, v = JArr elems ∧ length elems ≤ 5
               ∧ ∀ e, e ∈ elems → ∃ s, e = JStr s ∧ toLowerCase s = s
  end.

(** Text of ASCII characters none of which is an upper-case letter. *)
Fixpoint ascii_lowercase (s : string) : bool :=
  match s with
  | EmptyString => true
  | String c rest =>
      let n := Ascii.nat_of_ascii c in
      (n <? 128) && negb ((65 <=? n) && (n <=? 90)) && ascii_lowercase rest
  end.

(** What [toLowerCase] is assumed to do for the seed: it leaves such text
    as it is. *)
Definition lowercase_is_fixed : Prop :=
  ∀ s, ascii_lowercase s = true → toLowerCase s = s.

(** Payloads in the shape the validator was written for: title and
    description are not arrays or objects, and a tags array holds
    strings. *)
Definition scalar (v : option json) : Prop :=
  match v with
  | Some (JArr _) | Some (JObj _) => False
  | _ => True
  end.

Definition string_elements (v : option json) : Prop :=
  ∀ elems, v = Some (JArr elems) → ∀ e, e ∈ elems → ∃ s, e = JStr s.

Definition well_shaped (p : payload) : Prop :=
  scalar (title p) ∧ scalar (description p) ∧ string_elements (tags p).

End Vocabulary.

(** ** The create-mode validator as section 4.1 words it

    One rule per field, each giving the messages of its field; the report
    is the rules' messages in the order url, title, description, tags.
    On create a field counts as present when it is supplied with a value
    that is not empty ([null], [false], [0] and the empty text are
    empty). *)

Module Reference.
Section Rules.
Context {rt : Runtime}.

Definition present (v : option json) : bool := truthy_opt v.

(** The length of a text. *)
Definition text_length (v : option json) : option nat :=
  match v with
  | Some (JStr s) => Some (String.length s)
  | _ => None
  end.

Definition longer_than (n : nat) (v : option json) : bool :=
  match text_length v with
  | Some k => n <? k
  | None => false
  end.

(** The element is a text that differs from its lowercased form. *)
Definition differs_from_lowercase (e : json) : bool :=
  match e with
  | JStr s => negb (String.eqb s (toLowerCase s))
  | _ => false
  end.

Definition url_rule (p : payload) : list string :=
  if negb (present (url p)) then ["URL is required"]
  else if isValidUrl (url p) then []
  else ["URL must be valid"].

Definition title_rule (p : payload) : list string :=
  if negb (present (title p)) then ["Title is required"]
  else if longer_than 200 (title p) then ["Title must be max 200 characters"]
  else [].

Definition description_rule (p : payload) : list string :=
  if present (description p) && longer_than 500 (description p)
  then ["Description must be max 500 characters"]
  else [].

Definition tags_rule (p : payload) : list string :=
  if present (tags p) then
    match tags p with
    | Some (JArr elems) =>
        if 5 <? length elems then ["Maximum 5 tags allowed"]
        else if existsb differs_from_lowercase elems then ["Tags must be lowercase"]
        else []
    | _ => ["Tags must be an array"]
    end
  else [].

Definition messages (p : payload) : list string :=
  url_rule p ++ title_rule p ++ description_rule p ++ tags_rule p.

(** Create fails with the joined messages exactly when there are any. *)
Definition create_outcome (p : payload) : nat * option string :=
  match messages p with
  | [] => (201, None)
  | report => (400, Some (String.concat ", " report))
  end.

End Rules.
End Reference.

(** What a response tells a caller of create: the status, and the error
    report if there is one. *)
Definition outcome (r : response) : nat * option string :=
  match r with
  | Success s _ => (s, None)
  | Failure s e => (s, Some e)
  end.

(** ** The statements of the specification that the handlers do not meet *)

(** C7 as the specification states it: the failed fetch is answered with
    a [null] title. *)
Definition metadata_failure_gives_null : Prop :=
  ∀ (rt : Runtime) url page,
    truthy_opt url = true →
    isValidUrl url = true →
    fetch_failed page →
    wire (get_bookmarks_metadata url page)
    = (200, JObj [("success", JBool true); ("data", JObj [("title", JNull)])]).

(** C1 as the specification states it: for every payload, create answers
    as the reference validator says. *)
Definition create_follows_reference : Prop :=
  ∀ (rt : Runtime) uuid now body bookmarks p,
    destructure body = Ret p →
    outcome (post_bookmarks uuid now body bookmarks).1
    = Reference.create_outcome p.

(** C4 as the specification states it: every filter value selects the
    bookmarks that carry its lowercased form. *)
Definition list_filters_by_every_value : Prop :=
  ∀ (rt : Runtime) bookmarks (t : string),
    tags_are_sequences bookmarks →
    get_bookmarks (Some (JStr t)) bookmarks
    = Success 200 (Many (filter (λ b, has_tag (toLowerCase t) b = true) bookmarks)).

(** C5 as the specification states it: the created record carries the
    payload's four fields as they were sent. *)
Definition create_keeps_payload_fields : Prop :=
  ∀ (rt : Runtime) uuid now body bookmarks p b bookmarks',
    destructure body = Ret p →
    post_bookmarks uuid now body bookmarks = (Success 201 (One b), bookmarks') →
    bk_url b = url p ∧ bk_title b = title p
    ∧ bk_description b = description p ∧ bk_tags b = tags p.

(** * More of the server: requests with their answers *)

Section Answers.
Context {rt : Runtime}.

(** The answer to a request together with the store after it. *)
Definition handle (req : request) (bookmarks : list bookmark)
  : response * list bookmark :=
  match req with
  | Create uuid now body => post_bookmarks uuid now body bookmarks
  | Update id body => put_bookmarks_id id body bookmarks
  | Delete id => delete_bookmarks_id id bookmarks
  end.

(** The ids of the stored records, in collection order. *)
Definition ids_of (bookmarks : list bookmark) : list string :=
  bk_id <$> bookmarks.

(** The generated id of a create request is not in the store. *)
Definition fresh (req : request) (bookmarks : list bookmark) : Prop :=
  match req with
  | Create uuid _ _ => uuid ∉ ids_of bookmarks
  | _ => True
  end.

(** The field rules as the handlers test them, on a stored record: the url
    passes [isValidUrl], the title is truthy and [title.length > 200] is
    false, and a truthy description has [description.length > 500]
    false. *)
Definition entry_ok (b : bookmark) : Prop :=
  isValidUrl (bk_url b) = true
  ∧ truthy_opt (bk_title b) = true
  ∧ length_gt (bk_title b) 200 = Ret false
  ∧ (truthy_opt (bk_description b) = true →
     length_gt (bk_description b) 500 = Ret false).

End Answers.

(** * The browser client *)

(** ** [Pagination.jsx]: the page buttons *)

Inductive page_item :=
| Page (n : nat)
| Ellipsis.

(** [getPageNumbers].  Pages are counted from 1; every subtraction is taken
    in a branch where [totalPages] exceeds 5 (and [currentPage] exceeds 3
    where it is decremented), so it is exact on the naturals. *)
Definition getPageNumbers (currentPage totalPages : nat) : list page_item :=
  let maxVisible := 5 in
  if totalPages <=? maxVisible then Page <$> seq 1 totalPages
  else if currentPage <=? 3 then
    [Page 1; Page 2; Page 3; Page 4; Ellipsis; Page totalPages]
  else if totalPages - 2 <=? currentPage then
    [Page 1; Ellipsis; Page (totalPages - 3); Page (totalPages - 2);
     Page (totalPages - 1); Page totalPages]
  else
    [Page 1; Ellipsis; Page (currentPage - 1); Page currentPage;
     Page (currentPage + 1); Ellipsis; Page totalPages].

(** The items after page [prev] read as a run of the pages: a number is
    the page after the one before it, and an ellipsis stands between two
    numbers that leave out one page at least. *)
Fixpoint well_spaced (prev : nat) (items : list page_item) : Prop :=
  match items with
  | [] => True
  | Page n :: rest => n = prev + 1 ∧ well_spaced n rest
  | Ellipsis :: Page n :: rest => prev + 2 ≤ n ∧ well_spaced n rest
  | Ellipsis :: _ => False
  end.

(** ** [App.jsx]: the page window *)

(** [const [itemsPerPage] = useState(9)] *)
Definition itemsPerPage : nat := 9.

(** [l.slice(start, end)] for [0 <= start <= end]. *)
Definition slice {A} (start end_ : nat) (l : list A) : list A :=
  take (end_ - start) (drop start l).

(** [Math.ceil(n / d)] for naturals. *)
Definition ceil_div (n d : nat) : nat := (n + (d - 1)) / d.

(** [currentBookmarks]: the window of the page [currentPage >= 1]. *)
Definition currentBookmarks {A} (currentPage : nat) (filteredBookmarks : list A)
  : list A :=
  let indexOfLastItem := currentPage * itemsPerPage in
  let indexOfFirstItem := indexOfLastItem - itemsPerPage in
  slice indexOfFirstItem indexOfLastItem filteredBookmarks.

(** [totalPages = Math.ceil(filteredBookmarks.length / itemsPerPage)] *)
Definition totalPages {A} (filteredBookmarks : list A) : nat :=
  ceil_div (length filteredBookmarks) itemsPerPage.

(** ** [BookmarkCard]: the shortened description

    [text] is a text, as the descriptions sent by the forms are. *)
Definition truncateDescription (text : string) (maxLength : nat) : string :=
  if String.eqb text "" then ""
  else if String.length text <=? maxLength then text
  else String.substring 0 maxLength text +:+ "...".

(** ** [AddBookmarkForm] and [EditBookmarkModal]: the form check

    The two components carry the same [validateForm] and build the same
    [bookmarkData]; the values of the inputs are texts.  The browser's
    [trim], [toLowerCase] and [new URL] are those of the [Runtime] the
    server is run on. *)

Record formData := FormData {
  fd_url : string;
  fd_title : string;
  fd_description : string;
  fd_tags : string;
}.

(** The [newErrors] object: a key is [None] when it was not assigned. *)
Record formErrors := FormErrors {
  err_url : option string;
  err_title : option string;
  err_description : option string;
  err_tags : option string;
}.

(** [s.split(',')]: the pieces between the commas; the empty text has one
    empty piece. *)
Fixpoint split_commas (s : string) : list string :=
  match s with
  | EmptyString => [""]
  | String c rest =>
      if Ascii.eqb c (Ascii.ascii_of_nat 44) then "" :: split_commas rest
      else match split_commas rest with
           | piece :: pieces => String c piece :: pieces
           | [] => [String c ""]
           end
  end.

Section Forms.
Context {rt : Runtime}.

(** [formData.tags.split(',').map(t => t.trim()).filter(t => t)] *)
Definition checked_tags (tags : string) : list string :=
  filter (λ t, t ≠ "") (trim <$> split_commas tags).

(** [formData.tags.split(',').map(t => t.trim().toLowerCase()).filter(t => t)] *)
Definition sent_tags (tags : string) : list string :=
  filter (λ t, t ≠ "") ((λ t, toLowerCase (trim t)) <$> split_commas tags).

(** [validateForm]: the errors it sets, and whether there is none. *)
Definition validateForm (fd : formData) : formErrors * bool :=
  let e_url :=
    if String.eqb (trim (fd_url fd)) "" then Some "URL is required"
    else if URL_parses (JStr (fd_url fd)) then None
    else Some "Please enter a valid URL" in
  let e_title :=
    if String.eqb (trim (fd_title fd)) "" then Some "Title is required"
    else if 200 <? String.length (fd_title fd)
    then Some "Title must be max 200 characters"
    else None in
  let e_description :=
    if negb (String.eqb (fd_description fd) "")
       && (500 <? String.length (fd_description fd))
    then Some "Description must be max 500 characters"
    else None in
  let e_tags :=
    if negb (String.eqb (fd_tags fd) "") then
      let tagsArray := checked_tags (fd_tags fd) in
      let e := if 5 <? length tagsArray then Some "Maximum 5 tags allowed"
               else None in
      let hasUppercase :=
        existsb (λ tag, negb (String.eqb tag (toLowerCase tag))) tagsArray in
      if hasUppercase then Some "Tags must be lowercase" else e
    else None in
  let newErrors := FormErrors e_url e_title e_description e_tags in
  (newErrors,
   bool_decide (e_url = None ∧ e_title = None
                ∧ e_description = None ∧ e_tags = None)).

(** [JSON.stringify(bookmarkData)] as the server parses it: the keys whose
    value is [undefined] are left out. *)
Definition bookmarkData (fd : formData) : json :=
  JObj ([("url", JStr (fd_url fd)); ("title", JStr (fd_title fd))]
        ++ field_json "description"
             (if String.eqb (fd_description fd) "" then None
              else Some (JStr (fd_description fd)))
        ++ field_json "tags"
             (if String.eqb (fd_tags fd) "" then None
              else Some (JArr (JStr <$> sent_tags (fd_tags fd))))).

(** [handleSubmit]: the body that is sent, if the form check passes. *)
Definition handleSubmit (fd : formData) : option json :=
  if (validateForm fd).2 then Some (bookmarkData fd) else None.

(** The fields of a form as the server reads them, when the checked tags
    are what is sent. *)
Definition form_payload (fd : formData) : payload :=
  Payload (Some (JStr (fd_url fd))) (Some (JStr (fd_title fd)))
    (if String.eqb (fd_description fd) "" then None
     else Some (JStr (fd_description fd)))
    (if String.eqb (fd_tags fd) "" then None
     else Some (JArr (JStr <$> checked_tags (fd_tags fd)))).

End Forms.

(** ** [App.jsx]: the cache of the client and its handlers

    A handler is run on the state it was created in and on what its
    request came back with.  The record holds the state the handlers read
    or write; the search text, the active tag and the dark mode are not
    among it. *)

Record app := App {
  app_bookmarks : list bookmark;
  app_error : string;
  app_editingBookmark : option bookmark;
  app_currentPage : nat;
}.

(** What [await fetch(...)] and [response.json()] deliver: [data.data] when
    [data.success], [data.error] otherwise, or an exception. *)
Inductive reply (A : Type) :=
| ReplyOk (data : A)
| ReplyError (error : string)
| ReplyThrows.
Arguments ReplyOk {A} data.
Arguments ReplyError {A} error.
Arguments ReplyThrows {A}.

(** [fetchBookmarks] *)
Definition fetchBookmarks (r : reply (list bookmark)) (st : app) : app :=
  match r with
  | ReplyOk data => App data "" (app_editingBookmark st) 1
  | ReplyError e =>
      App (app_bookmarks st) e (app_editingBookmark st) (app_currentPage st)
  | ReplyThrows =>
      App (app_bookmarks st) "Failed to fetch bookmarks"
        (app_editingBookmark st) (app_currentPage st)
  end.

(** [handleAddBookmark] *)
Definition handleAddBookmark (r : reply bookmark) (st : app) : app * bool :=
  match r with
  | ReplyOk data =>
      (App (data :: app_bookmarks st) "" (app_editingBookmark st) 1, true)
  | ReplyError e =>
      (App (app_bookmarks st) e (app_editingBookmark st) (app_currentPage st),
       false)
  | ReplyThrows =>
      (App (app_bookmarks st) "Failed to add bookmark"
         (app_editingBookmark st) (app_currentPage st), false)
  end.

(** [handleUpdateBookmark] *)
Definition handleUpdateBookmark (id : string) (r : reply bookmark) (st : app)
  : app * bool :=
  match r with
  | ReplyOk data =>
      (App ((λ b, if decide (bk_id b = id) then data else b) <$> app_bookmarks st)
         "" None (app_currentPage st), true)
  | ReplyError e =>
      (App (app_bookmarks st) e (app_editingBookmark st) (app_currentPage st),
       false)
  | ReplyThrows =>
      (App (app_bookmarks st) "Failed to update bookmark"
         (app_editingBookmark st) (app_currentPage st), false)
  end.

(** [handleDeleteBookmark]; [confirmed] is the answer of
    [window.confirm]. *)
Definition handleDeleteBookmark (id : string) (confirmed : bool)
    (r : reply bookmark) (st : app) : app :=
  if negb confirmed then st
  else
    match r with
    | ReplyOk _ =>
        let newBookmarks := filter (λ b, bk_id b ≠ id) (app_bookmarks st) in
        let totalPages := ceil_div (length newBookmarks) itemsPerPage in
        App newBookmarks "" (app_editingBookmark st)
          (if (totalPages <? app_currentPage st) && (0 <? totalPages)
           then totalPages else app_currentPage st)
    | ReplyError e =>
        App (app_bookmarks st) e (app_editingBookmark st) (app_currentPage st)
    | ReplyThrows =>
        App (app_bookmarks st) "Failed to delete bookmark"
          (app_editingBookmark st) (app_currentPage st)
    end.

(** [fetchMetadata] of [App.jsx]: the title the metadata route sent, when
    it is not empty; [null] ([None]) otherwise. *)
Definition App_fetchMetadata (r : reply string) : option string :=
  match r with
  | ReplyOk title => if String.eqb title "" then None else Some title
  | ReplyError _ | ReplyThrows => None
  end.

(** [handleUrlBlur] of [AddBookmarkForm]: the form after the url input
    loses the focus, given what the metadata request came back with. *)
Definition handleUrlBlur {rt : Runtime} (r : reply string) (fd : formData)
  : formData :=
  if negb (String.eqb (fd_url fd) "") && String.eqb (fd_title fd) "" then
    if URL_parses (JStr (fd_url fd)) then
      match App_fetchMetadata r with
      | Some title =>
          FormData (fd_url fd) title (fd_description fd) (fd_tags fd)
      | None => fd
      end
    else fd
  else fd.

(** ** A sample runtime for the forms

    As [Sample.runtime], with a [trim] that strips the spaces at both ends
    (what [String.prototype.trim] does on texts whose only white space is
    the space character). *)

Module SampleClient.

Definition is_space (c : Ascii.ascii) : bool :=
  Ascii.eqb c (Ascii.ascii_of_nat 32).

Fixpoint trim_start (s : string) : string :=
  match s with
  | EmptyString => EmptyString
  | String c rest => if is_space c then trim_start rest else s
  end.

Fixpoint trim_end (s : string) : string :=
  match s with
  | EmptyString => EmptyString
  | String c rest =>
      match trim_end rest with
      | EmptyString => if is_space c then EmptyString else String c EmptyString
      | kept => String c kept
      end
  end.

Definition runtime : Runtime := {|
  toLowerCase := Sample.ascii_lower;
  URL_parses := Sample.http_url;
  gt_coerced := Sample.gt_number;
  match_title := λ _, None;
  trim := λ s, trim_end (trim_start s);
|}.

Definition form : formData :=
  FormData "https://example.com" " Example " "" " react, node ,,".

End SampleClient.

(** * Properties *)

Ltac case_result m :=
  let a := fresh "a" in
  let E := fresh "E" in
  destruct m as [a|] eqn:E; simpl.

Ltac split_errors :=
  repeat match goal with
  | H : _ ∧ _ |- _ => destruct H
  | H : _ ∨ _ |- _ => destruct H
  | H : ∃ _, _ |- _ => destruct H
  | H : Ret _ = Ret _ |- _ => injection H as H
  end; subst.

(** ** The repository's API tests, run on the embedding *)

Section ApiTests.
Import Sample.

Example test_reject_without_url :
  (post (JObj [("title", JStr "Test")]) []).1 = Failure 400 "URL is required".
Proof. reflexivity. Qed.

Example test_reject_invalid_url :
  (post (JObj [("url", JStr "not-a-valid-url"); ("title", JStr "Test")]) []).1
  = Failure 400 "URL must be valid".
Proof. reflexivity. Qed.

Example test_reject_without_title :
  (post (JObj [example_com]) []).1 = Failure 400 "Title is required".
Proof. reflexivity. Qed.

Example test_reject_long_title :
  (post (JObj [example_com; ("title", JStr (Sample.repeat_a 201))]) []).1
  = Failure 400 "Title must be max 200 characters".
Proof. vm_compute. reflexivity. Qed.

Example test_reject_six_tags :
  (post (JObj [example_com; ("title", JStr "Test");
               ("tags", JArr [JStr "tag1"; JStr "tag2"; JStr "tag3";
                              JStr "tag4"; JStr "tag5"; JStr "tag6"])]) []).1
  = Failure 400 "Maximum 5 tags allowed".
Proof. reflexivity. Qed.

Example test_reject_uppercase_tags :
  (post (JObj [example_com; ("title", JStr "Test");
               ("tags", JArr [JStr "React"; JStr "JavaScript"])]) []).1
  = Failure 400 "Tags must be lowercase".
Proof. reflexivity. Qed.

Example test_accept_required_fields_only :
  status_of (post (JObj [example_com; ("title", JStr "Minimal Bookmark")]) []).1
  = 201.
Proof. reflexivity. Qed.

Example test_filter_by_tag :
  bk_title <$> returned (get_bookmarks (rt:=Sample.runtime) (Some (JStr "react"))
                           Sample.two_bookmarks)
  = [Some (JStr "Example")].
Proof. reflexivity. Qed.

(** Requests outside the tests: a falsy tags value is treated as no tags
    on create, and an object sent as title is measured by the [length] it
    carries. *)
Example create_ignores_falsy_tags :
  returned (post (JObj [example_com; ("title", JStr "Test"); ("tags", JStr "")])
              []).1
  = [Bookmark "u" (Some (JStr "https://example.com")) (Some (JStr "Test"))
       None None "2024-01-02T00:00:00.000Z"].
Proof. reflexivity. Qed.

Example create_measures_object_title :
  (post (JObj [example_com;
               ("title", JObj [("length", JNum 300%float)])]) []).1
  = Failure 400 "Title must be max 200 characters".
Proof. vm_compute. reflexivity. Qed.

End ApiTests.

(** ** The exception monad *)

Lemma bind_Ret {A B} (m : result A) (f : A → result B) (b : B) :
  m ≫= f = Ret b → ∃ a, m = Ret a ∧ f a = Ret b.
Proof. destruct m as [a|]; simpl; [eauto | discriminate]. Qed.

Section Stores.
Context {rt : Runtime}.

(** A request that is not answered 201 leaves the store alone. *)
Lemma post_store uuid now body bookmarks :
  status_of (post_bookmarks uuid now body bookmarks).1 ≠ 201 →
  (post_bookmarks uuid now body bookmarks).2 = bookmarks.
Proof.
  unfold post_bookmarks.
  case_result (destructure body); [|done].
  case_result (validate_create a); [|done].
  destruct (0 <? length a0); simpl; [done | congruence].
Qed.

(** An update that is not answered 200 leaves the store alone. *)
Lemma put_store id body bookmarks :
  status_of (put_bookmarks_id id body bookmarks).1 ≠ 200 →
  (put_bookmarks_id id body bookmarks).2 = bookmarks.
Proof.
  unfold put_bookmarks_id.
  case_result (destructure body); [|done].
  destruct (findIndex id bookmarks) as [[i old]|]; simpl; [|done].
  case_result (validate_update a); [|done].
  destruct (0 <? length a0); simpl; [done | congruence].
Qed.

(** C2. When create or update fails validation (the response is a 400),
    the collection after the call is the collection before it. *)
Theorem validation_failure_mutates_nothing
    uuid now id body bookmarks (r : response) (bookmarks' : list bookmark) :
  post_bookmarks uuid now body bookmarks = (r, bookmarks')
  ∨ put_bookmarks_id id body bookmarks = (r, bookmarks') →
  status_of r = 400 →
  bookmarks' = bookmarks.
Proof.
  intros [E|E] Hs.
  - pose proof (post_store uuid now body bookmarks) as P.
    rewrite E in P. simpl in P. apply P. rewrite Hs. done.
  - pose proof (put_store id body bookmarks) as P.
    rewrite E in P. simpl in P. apply P. rewrite Hs. done.
Qed.

End Stores.

(** C2 on the seeded store: a create without url is answered 400 and the
    store is the seed still. *)
Lemma validation_failure_mutates_nothing_witness :
  let store := seed Sample.ids Sample.times in
  let body := JObj [("title", JStr "Test")] in
  let out := post_bookmarks (rt:=Sample.runtime) "u" "2024-01-02T00:00:00.000Z" body store in
  status_of out.1 = 400 ∧ out.2 = store.
Proof.
  intros store body out. split; [reflexivity|].
  apply (validation_failure_mutates_nothing (rt:=Sample.runtime)
           "u" "2024-01-02T00:00:00.000Z" "id-0" body store out.1 out.2).
  - left. reflexivity.
  - reflexivity.
Defined.

Section Lookup.
Context {rt : Runtime}.

Lemma findIndex_None id bookmarks :
  (∀ b, b ∈ bookmarks → bk_id b ≠ id) → findIndex id bookmarks = None.
Proof.
  intros Hno. unfold findIndex. apply list_find_None.
  apply Forall_forall. exact Hno.
Qed.

Lemma findIndex_Some id bookmarks i old :
  findIndex id bookmarks = Some (i, old) →
  bookmarks !! i = Some old ∧ bk_id old = id
  ∧ ∀ j b, bookmarks !! j = Some b → j < i → bk_id b ≠ id.
Proof.
  unfold findIndex. intros Hf. apply list_find_Some in Hf.
  destruct Hf as (Hi & Hid & Hfirst). eauto.
Qed.

(** C10. For an id that no stored bookmark has, update and delete leave
    the collection as it was, whatever the payload: the lookup comes before
    validation, so the answer is 404 also for a payload that would not
    validate. *)
Theorem unknown_id_changes_nothing id body bookmarks :
  (∀ b, b ∈ bookmarks → bk_id b ≠ id) →
  (put_bookmarks_id id body bookmarks).2 = bookmarks
  ∧ (delete_bookmarks_id id bookmarks).2 = bookmarks
  ∧ (delete_bookmarks_id id bookmarks).1 = Failure 404 "Bookmark not found"
  ∧ (body ≠ JNull →
     (put_bookmarks_id id body bookmarks).1 = Failure 404 "Bookmark not found").
Proof.
  intros Hno. apply findIndex_None in Hno.
  unfold put_bookmarks_id, delete_bookmarks_id. rewrite Hno.
  repeat split.
  - case_result (destructure body); done.
  - intros Hbody. destruct body; simpl; done.
Qed.

Lemma supplied_or_merged x old : merged x old (supplied_or x old).
Proof. destruct x; reflexivity. Qed.

(** C3. Every update, whatever the payload and the outcome, leaves the id
    and createdAt of every stored bookmark as they were.  A successful
    update rewrites one slot, the first bookmark with the id: each of url,
    title, description and tags holds the payload's value when the payload
    supplies one and the old value otherwise, and every other slot of the
    collection is unchanged. *)
Theorem update_replaces_supplied_fields id body bookmarks :
  identities (put_bookmarks_id id body bookmarks).2 = identities bookmarks
  ∧ ∀ b' bookmarks',
      put_bookmarks_id id body bookmarks = (Success 200 (One b'), bookmarks') →
      ∃ i old p,
        destructure body = Ret p
        ∧ bookmarks !! i = Some old
        ∧ bk_id old = id
        ∧ (∀ j b, bookmarks !! j = Some b → j < i → bk_id b ≠ id)
        ∧ bookmarks' = <[i := b']> bookmarks
        ∧ (∀ j, j ≠ i → bookmarks' !! j = bookmarks !! j)
        ∧ bk_id b' = bk_id old
        ∧ bk_createdAt b' = bk_createdAt old
        ∧ merged (url p) (bk_url old) (bk_url b')
        ∧ merged (title p) (bk_title old) (bk_title b')
        ∧ merged (description p) (bk_description old) (bk_description b')
        ∧ merged (tags p) (bk_tags old) (bk_tags b').
Proof.
  unfold put_bookmarks_id. split.
  - case_result (destructure body); [|done].
    destruct (findIndex id bookmarks) as [[i old]|] eqn:Ef; simpl; [|done].
    case_result (validate_update a); [|done].
    destruct (0 <? length a0); simpl; [done|].
    apply findIndex_Some in Ef as (Hi & _ & _).
    unfold identities. rewrite list_fmap_insert. simpl.
    apply list_insert_id. rewrite list_lookup_fmap, Hi. reflexivity.
  - intros b' bookmarks'.
    case_result (destructure body); [|done].
    destruct (findIndex id bookmarks) as [[i old]|] eqn:Ef; simpl; [|done].
    case_result (validate_update a); [|done].
    destruct (0 <? length a0); simpl; [done|].
    intros [= <- <-].
    apply findIndex_Some in Ef as (Hi & Hid & Hfirst).
    exists i, old, a. simpl.
    repeat split; auto using supplied_or_merged.
    intros j Hj. apply list_lookup_insert_ne. done.
Qed.

End Lookup.

(** C10 on the seeded store, for an id it does not hold and a payload with
    an empty title. *)
Lemma unknown_id_changes_nothing_witness :
  let store := seed Sample.ids Sample.times in
  let body := JObj [("title", JStr "")] in
  (put_bookmarks_id (rt:=Sample.runtime) "id-9" body store).2 = store
  ∧ (delete_bookmarks_id "id-9" store).2 = store
  ∧ (delete_bookmarks_id "id-9" store).1
    = Failure 404 "Bookmark not found"
  ∧ (body ≠ JNull →
     (put_bookmarks_id (rt:=Sample.runtime) "id-9" body store).1
     = Failure 404 "Bookmark not found").
Proof.
  intros store body.
  apply (unknown_id_changes_nothing (rt:=Sample.runtime) "id-9" body store).
  intros b Hb. unfold store, seed in Hb.
  repeat (apply elem_of_cons in Hb as [->|Hb]; [simpl; discriminate|]).
  apply elem_of_nil in Hb. destruct Hb.
Defined.

(** C3 on the seeded store: a payload with a description alone, sent to
    the second bookmark. *)
Lemma update_replaces_supplied_fields_witness :
  let store := seed Sample.ids Sample.times in
  let body := JObj [("description", JStr "x")] in
  let b' := Bookmark "id-1" (Some (JStr "https://nodejs.org"))
              (Some (JStr "Node.js")) (Some (JStr "x"))
              (Some (JArr [JStr "nodejs"; JStr "javascript"; JStr "backend"]))
              "2024-01-01T00:00:00.000Z" in
  put_bookmarks_id (rt:=Sample.runtime) "id-1" body store
  = (Success 200 (One b'), <[1 := b']> store)
  ∧ ∃ old, store !! 1 = Some old
           ∧ merged (Some (JStr "x")) (bk_description old) (bk_description b')
           ∧ merged None (bk_url old) (bk_url b')
           ∧ bk_createdAt b' = bk_createdAt old.
Proof.
  intros store body b'.
  assert (put_bookmarks_id (rt:=Sample.runtime) "id-1" body store
          = (Success 200 (One b'), <[1 := b']> store)) as E by reflexivity.
  split; [exact E|].
  destruct (update_replaces_supplied_fields (rt:=Sample.runtime) "id-1" body store)
    as [_ Hupd].
  destruct (Hupd _ _ E)
    as (i & old & p & Hp & Hi & Hid & Hfirst & _ & _ & _ & Hc & Hu & _ & Hd & _).
  injection Hp as <-.
  assert (i = 1) as ->.
  { destruct i as [|[|[|[|[|i]]]]]; simpl in Hi; try discriminate;
      injection Hi as <-; simpl in Hid; try discriminate; reflexivity. }
  exists old. auto.
Defined.

(** ** What each check adds to [errors] *)

Section Checks.
Context {rt : Runtime}.

Lemma check_title_cases t e e' :
  check_title t e = Ret e' →
  (truthy_opt t = false ∧ e' = e ++ ["Title is required"])
  ∨ (truthy_opt t = true ∧ length_gt t 200 = Ret true
     ∧ e' = e ++ ["Title must be max 200 characters"])
  ∨ (truthy_opt t = true ∧ length_gt t 200 = Ret false ∧ e' = e).
Proof.
  unfold check_title, push. destruct (truthy_opt t); simpl.
  - intros Hb. apply bind_Ret in Hb as ([] & Hl & [= <-]); auto.
  - intros [= <-]. auto.
Qed.

Lemma check_description_cases d e e' :
  check_description d e = Ret e' →
  (truthy_opt d = false ∧ e' = e)
  ∨ (truthy_opt d = true ∧ length_gt d 500 = Ret true
     ∧ e' = e ++ ["Description must be max 500 characters"])
  ∨ (truthy_opt d = true ∧ length_gt d 500 = Ret false ∧ e' = e).
Proof.
  unfold check_description, push. destruct (truthy_opt d); simpl.
  - intros Hb. apply bind_Ret in Hb as ([] & Hl & [= <-]); auto.
  - intros [= <-]. auto.
Qed.

Lemma check_tags_cases t e e' :
  check_tags t e = Ret e' →
  ((∀ elems, t ≠ Some (JArr elems)) ∧ e' = e ++ ["Tags must be an array"])
  ∨ ∃ elems, t = Some (JArr elems)
      ∧ ((5 < length elems ∧ e' = e ++ ["Maximum 5 tags allowed"])
         ∨ (length elems ≤ 5 ∧ some_not_lowercase elems = Ret true
            ∧ e' = e ++ ["Tags must be lowercase"])
         ∨ (length elems ≤ 5 ∧ some_not_lowercase elems = Ret false ∧ e' = e)).
Proof.
  unfold check_tags, push.
  destruct t as [[| | | |elems|]|]; try (intros [= <-]; left; split; [congruence|done]).
  destruct (5 <? length elems) eqn:E5.
  - apply Nat.ltb_lt in E5. intros [= <-]. right. exists elems. auto.
  - apply Nat.ltb_ge in E5. intros Hb.
    apply bind_Ret in Hb as ([] & Hl & [= <-]); right; exists elems; auto 6.
Qed.

(** [some] answers false only after it has called the callback on every
    element: all of them are strings equal to their lowercase form. *)
Lemma some_not_lowercase_false elems :
  some_not_lowercase elems = Ret false →
  ∀ e, e ∈ elems → ∃ s, e = JStr s ∧ toLowerCase s = s.
Proof.
  induction elems as [|x rest IH]; intros Hs e He.
  - apply elem_of_nil in He. destruct He.
  - destruct x as [| | |s| |]; simpl in Hs; try discriminate.
    destruct (String.eqb s (toLowerCase s)) eqn:Es; simpl in Hs; [|discriminate].
    apply String.eqb_eq in Es.
    apply elem_of_cons in He as [->|He]; eauto.
Qed.

End Checks.

(** ** The update path's url rule *)

Section UpdateValidation.
Context {rt : Runtime}.

Lemma validate_update_inv p errors :
  validate_update p = Ret errors →
  ∃ e2 e3,
    (if bool_decide (title p ≠ None)
     then check_title (title p) (update_url_errors p)
     else Ret (update_url_errors p)) = Ret e2
    ∧ (if bool_decide (description p ≠ None)
       then check_description (description p) e2 else Ret e2) = Ret e3
    ∧ (if bool_decide (tags p ≠ None)
       then check_tags (tags p) e3 else Ret e3) = Ret errors.
Proof.
  unfold validate_update, update_url_errors, push. intros Hv.
  apply bind_Ret in Hv as (e2 & H2 & Hv).
  apply bind_Ret in Hv as (e3 & H3 & Hv).
  exists e2, e3. repeat split; [|done..].
  rewrite <- H2. repeat case_bool_decide; done.
Qed.

(** Every message but the url one is added by a later block. *)
Lemma validate_update_messages p errors :
  validate_update p = Ret errors →
  ∃ later, errors = update_url_errors p ++ later
    ∧ (∀ m, m ∈ later →
         m = "Title is required" ∨ m = "Title must be max 200 characters"
         ∨ m = "Description must be max 500 characters"
         ∨ m = "Tags must be an array" ∨ m = "Maximum 5 tags allowed"
         ∨ m = "Tags must be lowercase")
    ∧ (title p ≠ None → truthy_opt (title p) = false →
       "Title is required" ∈ later).
Proof.
  intros Hv. apply validate_update_inv in Hv as (e2 & e3 & H2 & H3 & H4).
  assert (∃ l2, e2 = update_url_errors p ++ l2
            ∧ (∀ m, m ∈ l2 → m = "Title is required"
                             ∨ m = "Title must be max 200 characters")
            ∧ (title p ≠ None → truthy_opt (title p) = false →
               "Title is required" ∈ l2)) as (l2 & -> & Hl2 & Ht).
  { destruct (bool_decide_reflect (title p ≠ None)) as [Et|Et].
    - apply check_title_cases in H2. split_errors.
      + exists ["Title is required"]. set_solver.
      + exists ["Title must be max 200 characters"]. split; [done|].
        split; [set_solver | congruence].
      + exists []. rewrite app_nil_r. split; [done|].
        split; [set_solver | congruence].
    - injection H2 as <-. exists []. rewrite app_nil_r. set_solver. }
  assert (∃ l3, e3 = (update_url_errors p ++ l2) ++ l3
            ∧ (∀ m, m ∈ l3 → m = "Description must be max 500 characters"))
    as (l3 & -> & Hl3).
  { destruct (bool_decide_reflect (description p ≠ None)).
    - apply check_description_cases in H3. split_errors.
      + exists []. rewrite app_nil_r. set_solver.
      + exists ["Description must be max 500 characters"]. set_solver.
      + exists []. rewrite app_nil_r. set_solver.
    - injection H3 as <-. exists []. rewrite app_nil_r. set_solver. }
  assert (∃ l4, errors = ((update_url_errors p ++ l2) ++ l3) ++ l4
            ∧ (∀ m, m ∈ l4 → m = "Tags must be an array"
                             ∨ m = "Maximum 5 tags allowed"
                             ∨ m = "Tags must be lowercase"))
    as (l4 & -> & Hl4).
  { destruct (bool_decide_reflect (tags p ≠ None)).
    - apply check_tags_cases in H4. split_errors.
      + exists ["Tags must be an array"]. set_solver.
      + exists ["Maximum 5 tags allowed"]. set_solver.
      + exists ["Tags must be lowercase"]. set_solver.
      + exists []. rewrite app_nil_r. set_solver.
    - injection H4 as <-. exists []. rewrite app_nil_r. set_solver. }
  exists (l2 ++ l3 ++ l4). rewrite !app_assoc. split; [done|]. split.
  - intros m Hm. rewrite !elem_of_app in Hm. destruct Hm as [[Hm|Hm]|Hm].
    + apply Hl2 in Hm. tauto.
    + apply Hl3 in Hm. tauto.
    + apply Hl4 in Hm. tauto.
  - intros Hs Hf. rewrite !elem_of_app. auto.
Qed.

(** C8. On update a supplied url is checked for validity only: the
    message "URL must be valid" is reported exactly when a url is supplied
    and is not valid, the message "URL is required" is never among the
    update path's messages (also not for a supplied empty url), whereas a
    supplied empty title is reported as "Title is required".  The 400
    response of the update handler is these messages joined. *)
Theorem update_never_requires_url p errors :
  validate_update p = Ret errors →
  ("URL is required" ∉ errors)
  ∧ ("URL must be valid" ∈ errors ↔ url p ≠ None ∧ isValidUrl (url p) = false)
  ∧ (title p ≠ None → truthy_opt (title p) = false →
     "Title is required" ∈ errors)
  ∧ (∀ id body bookmarks,
       destructure body = Ret p → is_Some (findIndex id bookmarks) →
       errors ≠ [] →
       put_bookmarks_id id body bookmarks
       = (Failure 400 (String.concat ", " errors), bookmarks)).
Proof.
  intros Hv. pose proof Hv as Hm.
  apply validate_update_messages in Hm as (later & -> & Hlater & Htitle).
  assert (∀ m, m ∈ update_url_errors p →
            m = "URL must be valid" ∧ url p ≠ None ∧ isValidUrl (url p) = false)
    as Hurl.
  { unfold update_url_errors. intros m. case_bool_decide; [|set_solver].
    destruct (isValidUrl (url p)); simpl; set_solver. }
  repeat split.
  - rewrite elem_of_app. intros [Hin|Hin].
    + apply Hurl in Hin as [? _]. discriminate.
    + apply Hlater in Hin. intuition discriminate.
  - apply elem_of_app in H as [Hin|Hin].
    + apply Hurl in Hin. tauto.
    + apply Hlater in Hin. intuition discriminate.
  - apply elem_of_app in H as [Hin|Hin].
    + apply Hurl in Hin. tauto.
    + apply Hlater in Hin. intuition discriminate.
  - intros [Hs Hinv]. apply elem_of_app. left.
    unfold update_url_errors. rewrite bool_decide_true by done.
    rewrite Hinv. simpl. set_solver.
  - intros Hs Hf. apply elem_of_app. right. auto.
  - intros id body bookmarks Hd [[i old] Hf] Hne.
    unfold put_bookmarks_id. rewrite Hd. simpl. rewrite Hf, Hv. simpl.
    destruct (update_url_errors p ++ later); [done|reflexivity].
Qed.

End UpdateValidation.

(** C8 on a payload that supplies an empty url and an empty title. *)
Lemma update_never_requires_url_witness :
  let p := Payload (Some (JStr "")) (Some (JStr "")) None None in
  let errors := ["URL must be valid"; "Title is required"] in
  validate_update (rt:=Sample.runtime) p = Ret errors
  ∧ ("URL is required" ∉ errors)
  ∧ ("URL must be valid" ∈ errors)
  ∧ ("Title is required" ∈ errors)
  ∧ put_bookmarks_id (rt:=Sample.runtime) "id-0"
      (JObj [("url", JStr ""); ("title", JStr "")])
      (seed Sample.ids Sample.times)
    = (Failure 400 "URL must be valid, Title is required",
       seed Sample.ids Sample.times).
Proof.
  intros p errors.
  assert (validate_update (rt:=Sample.runtime) p = Ret errors) as E by reflexivity.
  destruct (update_never_requires_url (rt:=Sample.runtime) p errors E)
    as (Hreq & Hvalid & Htitle & Hput).
  split; [exact E|]. split; [exact Hreq|]. split.
  { apply Hvalid. split; [discriminate | reflexivity]. }
  split.
  { apply Htitle; [discriminate | reflexivity]. }
  apply (Hput "id-0" _ (seed Sample.ids Sample.times)).
  - reflexivity.
  - eexists. reflexivity.
  - discriminate.
Defined.

(** ** Optional fields on the wire *)

Section Optional.
Context {rt : Runtime}.

Lemma findIndex_head id b rest :
  bk_id b = id → findIndex id (b :: rest) = Some (0, b).
Proof.
  intros Hid. unfold findIndex. simpl. rewrite decide_True by done. reflexivity.
Qed.

(** POST never stores [null] in an optional field: [x || undefined] turns
    every falsy value into an absent property. *)
Lemma post_optional_not_null uuid now body bookmarks b bookmarks' :
  post_bookmarks uuid now body bookmarks = (Success 201 (One b), bookmarks') →
  shown "description" b ≠ Some JNull ∧ shown "tags" b ≠ Some JNull.
Proof.
  unfold post_bookmarks.
  case_result (destructure body); [|done].
  case_result (validate_create a); [|done].
  destruct (0 <? length a0); simpl; [done|].
  intros [= <- <-]. unfold shown, bookmark_json, or_undefined. simpl.
  destruct (url a), (title a); simpl;
    destruct (description a) as [[]|], (tags a) as [[]|]; simpl;
    repeat (match goal with |- context [if ?c then _ else _] => destruct c end;
            simpl);
    split; congruence.
Qed.

(** C9. The update handler stores a supplied [null] description as it is:
    the seeded store, updated at its first bookmark with the body
    [{"description": null}], answers 200 with a bookmark whose JSON shows
    ["description": null]. *)
Theorem put_null_description_is_returned ids times :
  wire (put_bookmarks_id (ids 0) (JObj [("description", JNull)])
          (seed ids times)).1
  = (200,
     JObj [("success", JBool true);
           ("data",
            JObj [("id", JStr (ids 0));
                  ("url", JStr "https://react.dev");
                  ("title", JStr "React Documentation");
                  ("description", JNull);
                  ("tags", JArr [JStr "react"; JStr "javascript"; JStr "frontend"]);
                  ("createdAt", JStr (times 0))])]).
Proof.
  unfold put_bookmarks_id.
  assert (findIndex (ids 0) (seed ids times) = Some (0, _)) as ->
    by (apply findIndex_head; reflexivity).
  reflexivity.
Qed.

End Optional.

(** ** Title lookup *)

Section Metadata.
Context {rt : Runtime}.

Lemma fetch_failed_null page : fetch_failed page → fetchMetadata page = None.
Proof.
  destruct page as [|html]; simpl; [done|].
  intros [->|(g & -> & ->)]; reflexivity.
Qed.

(** C7. When the fetch for a valid url fails, the metadata route answers
    200 with [success: true], and [data.title] is the text
    "Unable to fetch title"; the failure is not turned into an error
    response. *)
Theorem metadata_failure_gives_placeholder url page :
  truthy_opt url = true →
  isValidUrl url = true →
  fetch_failed page →
  wire (get_bookmarks_metadata url page)
  = (200, JObj [("success", JBool true);
                ("data", JObj [("title", JStr "Unable to fetch title")])]).
Proof.
  intros Ht Hv Hf. unfold get_bookmarks_metadata.
  rewrite Ht, Hv, (fetch_failed_null page Hf). reflexivity.
Qed.

End Metadata.

(** C7 as stated fails: a request that throws, for the url
    https://example.com, is answered with a title that is not [null]. *)
Lemma metadata_failure_gives_null_fails : ¬ metadata_failure_gives_null.
Proof.
  intros Hclaim.
  specialize (Hclaim Sample.runtime (Some (JStr "https://example.com"))
                FetchThrows eq_refl eq_refl I).
  vm_compute in Hclaim. discriminate Hclaim.
Qed.

(** C7 on a fetch that throws. *)
Lemma metadata_failure_gives_placeholder_witness :
  let url := Some (JStr "https://example.com") in
  truthy_opt url = true
  ∧ isValidUrl (rt:=Sample.runtime) url = true
  ∧ fetch_failed (rt:=Sample.runtime) FetchThrows
  ∧ wire (get_bookmarks_metadata (rt:=Sample.runtime) url FetchThrows)
    = (200, JObj [("success", JBool true);
                  ("data", JObj [("title", JStr "Unable to fetch title")])]).
Proof.
  intros url. split; [reflexivity|]. split; [reflexivity|]. split; [exact I|].
  apply (metadata_failure_gives_placeholder (rt:=Sample.runtime) url FetchThrows);
    [reflexivity | reflexivity | exact I].
Defined.

(** ** The create-mode validator against section 4.1 *)

Section CreateValidation.
Context {rt : Runtime}.

Lemma check_title_reference p e :
  scalar (title p) →
  check_title (title p) e = Ret (e ++ Reference.title_rule p).
Proof.
  unfold check_title, Reference.title_rule, Reference.present,
    Reference.longer_than, push.
  destruct (title p) as [[| [] |n|s| |]|]; simpl; try done;
    intros _; rewrite ?app_nil_r; try done.
  - destruct (negb _); simpl; by rewrite ?app_nil_r.
  - destruct (negb (String.eqb s "")); simpl; [|done].
    destruct (200 <? String.length s); by rewrite ?app_nil_r.
Qed.

Lemma check_description_reference p e :
  scalar (description p) →
  check_description (description p) e = Ret (e ++ Reference.description_rule p).
Proof.
  unfold check_description, Reference.description_rule, Reference.present,
    Reference.longer_than, push.
  destruct (description p) as [[| [] |n|s| |]|]; simpl; try done;
    intros _; rewrite ?app_nil_r; try done.
  - destruct (negb _); simpl; by rewrite ?app_nil_r.
  - destruct (negb (String.eqb s "")); simpl; [|by rewrite app_nil_r].
    destruct (500 <? String.length s); by rewrite ?app_nil_r.
Qed.

(** On an array of strings [some] visits the elements in order and never
    throws. *)
Lemma some_not_lowercase_reference elems :
  (∀ e, e ∈ elems → ∃ s, e = JStr s) →
  some_not_lowercase elems
  = Ret (existsb Reference.differs_from_lowercase elems).
Proof.
  induction elems as [|x rest IH]; intros Hstr; [done|].
  destruct (Hstr x) as [s ->]; [by left|]. simpl.
  destruct (String.eqb s (toLowerCase s)); simpl; [|done].
  apply IH. intros e He. apply Hstr. by right.
Qed.

Lemma check_tags_reference p e :
  string_elements (tags p) →
  (if truthy_opt (tags p) then check_tags (tags p) e else Ret e)
  = Ret (e ++ Reference.tags_rule p).
Proof.
  unfold Reference.tags_rule, Reference.present, check_tags, push.
  intros Hstr. destruct (truthy_opt (tags p)) eqn:Et; [|by rewrite app_nil_r].
  destruct (tags p) as [[| | | |elems|]|]; try done.
  destruct (5 <? length elems); [done|].
  rewrite some_not_lowercase_reference by (by apply Hstr). simpl.
  destruct (existsb _ elems); by rewrite ?app_nil_r.
Qed.

Lemma validate_create_reference p :
  well_shaped p → validate_create p = Ret (Reference.messages p).
Proof.
  intros (Ht & Hd & Hs). unfold validate_create, Reference.messages.
  assert ((if negb (truthy_opt (url p)) then push [] "URL is required"
           else if negb (isValidUrl (url p)) then push [] "URL must be valid"
                else []) = Reference.url_rule p) as ->.
  { unfold Reference.url_rule, Reference.present, push.
    destruct (truthy_opt (url p)); simpl; [|done].
    destruct (isValidUrl (url p)); done. }
  rewrite check_title_reference by done. simpl.
  rewrite check_description_reference by done. simpl.
  rewrite check_tags_reference by done.
  by rewrite <- !app_assoc.
Qed.

(** C1. For every payload in which title and description are not arrays
    or objects and a tags array holds strings, the create handler's
    messages are those of the four rules of section 4.1 in the order url,
    title, description, tags (a field counting as present when it is
    supplied and truthy, one message at most per field, the tags
    sub-checks tried in the order not-an-array, more-than-5,
    not-lowercase), and the handler answers 400 with the messages joined
    by ", " exactly when there is a message, and 201 otherwise. *)
Theorem create_follows_reference_on_well_shaped uuid now body bookmarks p :
  destructure body = Ret p →
  well_shaped p →
  validate_create p = Ret (Reference.messages p)
  ∧ outcome (post_bookmarks uuid now body bookmarks).1
    = Reference.create_outcome p
  ∧ (status_of (post_bookmarks uuid now body bookmarks).1 = 400
     ↔ Reference.messages p ≠ []).
Proof.
  intros Hd Hw. pose proof (validate_create_reference p Hw) as Hv.
  split; [exact Hv|].
  unfold post_bookmarks, Reference.create_outcome. rewrite Hd. simpl.
  rewrite Hv. simpl.
  destruct (Reference.messages p) as [|m ms]; simpl; split; done.
Qed.

End CreateValidation.

(** C1 as stated fails on a payload whose only field is [tags: [1]]: the
    rules give two messages, so the reference answers 400; the handler
    throws in the casing check and answers 500. *)
Lemma create_follows_reference_fails : ¬ create_follows_reference.
Proof.
  intros Hclaim.
  specialize (Hclaim Sample.runtime "u" "2024-01-02T00:00:00.000Z"
                (JObj [("tags", JArr [JNum 1%float])]) []
                (Payload None None None (Some (JArr [JNum 1%float]))) eq_refl).
  vm_compute in Hclaim. discriminate Hclaim.
Qed.

(** C1 on a payload with an invalid url and two capitalised tags. *)
Lemma create_follows_reference_on_well_shaped_witness :
  let body := JObj [("url", JStr "not-a-valid-url"); ("title", JStr "Test");
                    ("tags", JArr [JStr "React"; JStr "JavaScript"])] in
  let p := Payload (Some (JStr "not-a-valid-url")) (Some (JStr "Test")) None
             (Some (JArr [JStr "React"; JStr "JavaScript"])) in
  destructure body = Ret p
  ∧ validate_create (rt:=Sample.runtime) p
    = Ret ["URL must be valid"; "Tags must be lowercase"]
  ∧ outcome (post_bookmarks (rt:=Sample.runtime) "u" "2024-01-02T00:00:00.000Z"
               body []).1
    = (400, Some "URL must be valid, Tags must be lowercase").
Proof.
  intros body p.
  assert (well_shaped p) as Hw.
  { split; [exact I|]. split; [exact I|].
    intros elems [= <-] e He.
    repeat (apply elem_of_cons in He as [->|He]; [eexists; reflexivity|]).
    apply elem_of_nil in He. destruct He. }
  destruct (create_follows_reference_on_well_shaped (rt:=Sample.runtime)
              "u" "2024-01-02T00:00:00.000Z" body [] p eq_refl Hw)
    as (Hv & Ho & _).
  split; [reflexivity|]. split; [exact Hv | exact Ho].
Defined.

(** ** Listing *)

Section Listing.
Context {rt : Runtime}.

Lemma has_tag_elem needle b :
  has_tag needle b = true
  ↔ ∃ elems, bk_tags b = Some (JArr elems) ∧ JStr needle ∈ elems.
Proof.
  unfold has_tag. split.
  - destruct (bk_tags b) as [[| | | |elems|]|]; try discriminate.
    intros He. apply existsb_exists in He as (e & Hin & Heq).
    destruct e as [| | |s| |]; try discriminate.
    apply String.eqb_eq in Heq as ->.
    exists elems. split; [done|]. by apply list_elem_of_In.
  - intros (elems & -> & Hin). apply existsb_exists.
    exists (JStr needle). split; [by apply list_elem_of_In|].
    apply String.eqb_refl.
Qed.

Lemma tag_matches_has_tag (t : string) b :
  bk_tags b = None ∨ (∃ elems, bk_tags b = Some (JArr elems)) →
  tag_matches (JStr t) b = Ret (has_tag (toLowerCase t) b).
Proof.
  unfold tag_matches, has_tag. intros [->|[elems ->]]; reflexivity.
Qed.

Lemma filter_by_tag (t : string) bookmarks :
  tags_are_sequences bookmarks →
  filter_result (tag_matches (JStr t)) bookmarks
  = Ret (filter (λ b, has_tag (toLowerCase t) b = true) bookmarks).
Proof.
  induction bookmarks as [|b rest IH]; intros Hwf; [done|].
  simpl. rewrite tag_matches_has_tag by (apply Hwf; by left). simpl.
  rewrite IH by (intros x Hx; apply Hwf; by right). simpl.
  rewrite filter_cons. destruct (has_tag (toLowerCase t) b).
  - by rewrite decide_True.
  - by rewrite decide_False.
Qed.

(** C4. For every store whose tags fields are absent or sequences and
    every non-empty filter text [t], the list route returns exactly the
    bookmarks whose tags sequence contains the lowercased [t], in
    collection order; with no filter, and also with the empty text as the
    filter value, it returns the whole collection in collection order. *)
Theorem list_filters_by_nonempty_tag bookmarks (t : string) :
  tags_are_sequences bookmarks →
  t ≠ "" →
  get_bookmarks (Some (JStr t)) bookmarks
  = Success 200 (Many (filter (λ b, has_tag (toLowerCase t) b = true) bookmarks))
  ∧ (∀ b, has_tag (toLowerCase t) b = true
          ↔ ∃ elems, bk_tags b = Some (JArr elems) ∧ JStr (toLowerCase t) ∈ elems)
  ∧ get_bookmarks None bookmarks = Success 200 (Many bookmarks)
  ∧ get_bookmarks (Some (JStr "")) bookmarks = Success 200 (Many bookmarks).
Proof.
  intros Hwf Ht. repeat split; try apply has_tag_elem.
  unfold get_bookmarks. simpl.
  destruct (String.eqb t "") eqn:Et.
  - apply String.eqb_eq in Et. done.
  - simpl. by rewrite filter_by_tag.
Qed.

End Listing.

(** Every seeded bookmark has a tags sequence. *)
Lemma seed_tags_are_sequences ids times : tags_are_sequences (seed ids times).
Proof.
  intros b Hb. unfold seed in Hb.
  repeat (apply elem_of_cons in Hb as [->|Hb]; [right; eexists; reflexivity|]).
  apply elem_of_nil in Hb. destruct Hb.
Qed.

(** C4 as stated fails for the empty filter text on the seeded store: the
    handler returns all five bookmarks, none of which carries the empty
    tag. *)
Lemma list_filters_by_every_value_fails : ¬ list_filters_by_every_value.
Proof.
  intros Hclaim.
  specialize (Hclaim Sample.runtime (seed Sample.ids Sample.times) ""
                (seed_tags_are_sequences _ _)).
  vm_compute in Hclaim. discriminate Hclaim.
Qed.

(** C4 on the seeded store with the filter React. *)
Lemma list_filters_by_nonempty_tag_witness :
  let store := seed Sample.ids Sample.times in
  tags_are_sequences store
  ∧ "React" ≠ ""
  ∧ (returned (get_bookmarks (rt:=Sample.runtime) (Some (JStr "React")) store))
    = filter (λ b, has_tag "react" b = true) store
  ∧ bk_id <$> returned (get_bookmarks (rt:=Sample.runtime) (Some (JStr "React")) store)
    = ["id-0"].
Proof.
  intros store.
  assert ("React" ≠ "") as Hne by discriminate.
  destruct (list_filters_by_nonempty_tag (rt:=Sample.runtime) store "React"
              (seed_tags_are_sequences _ _) Hne) as (Hlist & _).
  split; [apply seed_tags_are_sequences|]. split; [exact Hne|].
  split; [|reflexivity].
  rewrite Hlist. reflexivity.
Defined.

(** ** Create, then list *)

Section CreateList.
Context {rt : Runtime}.

Lemma or_undefined_kept v : kept_if_truthy v (or_undefined v).
Proof. unfold kept_if_truthy, or_undefined. by destruct (truthy_opt v). Qed.

Lemma filter_fresh_id uuid (bookmarks : list bookmark) :
  (∀ x, x ∈ bookmarks → bk_id x ≠ uuid) →
  filter (λ x, bk_id x = uuid) bookmarks = [].
Proof.
  induction bookmarks as [|x rest IH]; intros Hfresh; [done|].
  rewrite filter_cons, decide_False by (apply Hfresh; by left).
  apply IH. intros y Hy. apply Hfresh. by right.
Qed.

(** C5. When create succeeds, with a generated id that no stored bookmark
    has, a following list() returns the old collection followed by the new
    record, which is the only one with the new id; its id and createdAt
    are the generated ones, its url and title are the payload's, and its
    description and tags are the payload's when these are truthy and are
    absent otherwise. *)
Theorem create_then_list uuid now body bookmarks b bookmarks' :
  post_bookmarks uuid now body bookmarks = (Success 201 (One b), bookmarks') →
  (∀ x, x ∈ bookmarks → bk_id x ≠ uuid) →
  ∃ p, destructure body = Ret p
       ∧ get_bookmarks None bookmarks' = Success 200 (Many (bookmarks ++ [b]))
       ∧ filter (λ x, bk_id x = uuid) (bookmarks ++ [b]) = [b]
       ∧ bk_id b = uuid
       ∧ bk_createdAt b = now
       ∧ bk_url b = url p
       ∧ bk_title b = title p
       ∧ kept_if_truthy (description p) (bk_description b)
       ∧ kept_if_truthy (tags p) (bk_tags b).
Proof.
  unfold post_bookmarks. intros Hpost Hfresh.
  destruct (destructure body) as [p|] eqn:Hd; simpl in Hpost; [|done].
  destruct (validate_create p) as [errors|]; simpl in Hpost; [|done].
  destruct (0 <? length errors); simpl in Hpost; [done|].
  injection Hpost as <- <-. exists p. simpl.
  repeat split; auto using or_undefined_kept.
  rewrite filter_app, filter_fresh_id by done. simpl.
  rewrite filter_cons, decide_True by done. reflexivity.
Qed.

End CreateList.

(** C5 as stated fails on a valid payload with an empty description: the
    created record has no description. *)
Lemma create_keeps_payload_fields_fails : ¬ create_keeps_payload_fields.
Proof.
  intros Hclaim.
  destruct (Hclaim Sample.runtime "u" "2024-01-02T00:00:00.000Z"
              (JObj [("url", JStr "https://example.com"); ("title", JStr "Test");
                     ("description", JStr "")])
              [] _ _ _ eq_refl eq_refl) as (_ & _ & Hdesc & _).
  discriminate Hdesc.
Qed.

(** C5 on the seeded store. *)
Lemma create_then_list_witness :
  let body := JObj [("url", JStr "https://example.com");
                    ("title", JStr "Example Site");
                    ("description", JStr "A test bookmark");
                    ("tags", JArr [JStr "test"; JStr "example"])] in
  let store := seed Sample.ids Sample.times in
  let b := Bookmark "u" (Some (JStr "https://example.com"))
             (Some (JStr "Example Site")) (Some (JStr "A test bookmark"))
             (Some (JArr [JStr "test"; JStr "example"]))
             "2024-01-02T00:00:00.000Z" in
  post_bookmarks (rt:=Sample.runtime) "u" "2024-01-02T00:00:00.000Z" body store
  = (Success 201 (One b), store ++ [b])
  ∧ get_bookmarks (rt:=Sample.runtime) None (store ++ [b])
    = Success 200 (Many (store ++ [b]))
  ∧ filter (λ x, bk_id x = "u") (store ++ [b]) = [b].
Proof.
  intros body store b.
  assert (post_bookmarks (rt:=Sample.runtime) "u" "2024-01-02T00:00:00.000Z"
            body store = (Success 201 (One b), store ++ [b])) as E by reflexivity.
  split; [exact E|].
  destruct (create_then_list (rt:=Sample.runtime) _ _ _ _ _ _ E)
    as (p & _ & Hlist & Hone & _).
  - intros x Hx. unfold store, seed in Hx.
    repeat (apply elem_of_cons in Hx as [->|Hx]; [simpl; discriminate|]).
    apply elem_of_nil in Hx. destruct Hx.
  - split; [exact Hlist | exact Hone].
Defined.

(** ** The tags invariant of the reachable stores *)

Section TagsInvariant.
Context {rt : Runtime}.

Lemma push_not_nil e m : e ++ [m] ≠ @nil string.
Proof. destruct e; discriminate. Qed.

(** A tags block that leaves an empty [errors] empty has seen a sequence
    of at most five lowercase strings. *)
Lemma check_tags_accepts t e :
  check_tags t e = Ret [] →
  e = [] ∧ ∃ elems, t = Some (JArr elems) ∧ length elems ≤ 5
                    ∧ ∀ x, x ∈ elems → ∃ s, x = JStr s ∧ toLowerCase s = s.
Proof.
  intros Hc. apply check_tags_cases in Hc as [[_ He]|(elems & -> & Hc)].
  - symmetry in He. by apply push_not_nil in He.
  - destruct Hc as [[_ He]|[(_ & _ & He)|(Hlen & Hsome & ->)]].
    + symmetry in He. by apply push_not_nil in He.
    + symmetry in He. by apply push_not_nil in He.
    + split; [done|]. exists elems. split; [done|]. split; [done|].
      by apply some_not_lowercase_false.
Qed.

Lemma validate_create_accepts_tags p :
  validate_create p = Ret [] →
  truthy_opt (tags p) = true →
  ∃ elems, tags p = Some (JArr elems) ∧ length elems ≤ 5
           ∧ ∀ x, x ∈ elems → ∃ s, x = JStr s ∧ toLowerCase s = s.
Proof.
  unfold validate_create. intros Hv Ht.
  apply bind_Ret in Hv as (e2 & _ & Hv).
  apply bind_Ret in Hv as (e3 & _ & Hv).
  rewrite Ht in Hv. by apply check_tags_accepts in Hv as [_ ?].
Qed.

Lemma validate_update_accepts_tags p :
  validate_update p = Ret [] →
  tags p ≠ None →
  ∃ elems, tags p = Some (JArr elems) ∧ length elems ≤ 5
           ∧ ∀ x, x ∈ elems → ∃ s, x = JStr s ∧ toLowerCase s = s.
Proof.
  intros Hv Ht. apply validate_update_inv in Hv as (e2 & e3 & _ & _ & Hv).
  rewrite bool_decide_true in Hv by done.
  by apply check_tags_accepts in Hv as [_ ?].
Qed.

Lemma length_0_nil (errors : list string) :
  (0 <? length errors) = false → errors = [].
Proof. by destruct errors. Qed.

Lemma post_preserves_tags uuid now body bookmarks :
  Forall tags_ok bookmarks →
  Forall tags_ok (post_bookmarks uuid now body bookmarks).2.
Proof.
  intros Hok. unfold post_bookmarks.
  case_result (destructure body); [|done].
  case_result (validate_create a); [|done].
  destruct (0 <? length a0) eqn:El; simpl; [done|].
  apply length_0_nil in El as ->.
  apply Forall_app. split; [done|]. apply Forall_singleton.
  unfold tags_ok, or_undefined. simpl.
  destruct (truthy_opt (tags a)) eqn:Et; [|done].
  destruct (validate_create_accepts_tags a E0 Et) as (elems & -> & Hl & Hs).
  eauto.
Qed.

Lemma put_preserves_tags id body bookmarks :
  Forall tags_ok bookmarks →
  Forall tags_ok (put_bookmarks_id id body bookmarks).2.
Proof.
  intros Hok. unfold put_bookmarks_id.
  case_result (destructure body); [|done].
  destruct (findIndex id bookmarks) as [[i old]|] eqn:Ef; simpl; [|done].
  case_result (validate_update a); [|done].
  destruct (0 <? length a0) eqn:El; simpl; [done|].
  apply length_0_nil in El as ->.
  apply findIndex_Some in Ef as (Hi & _ & _).
  apply Forall_insert; [done|].
  unfold tags_ok, supplied_or. simpl.
  destruct (bool_decide_reflect (tags a ≠ None)) as [Ht|Ht].
  - destruct (validate_update_accepts_tags a E0 Ht) as (elems & -> & Hl & Hs).
    eauto.
  - exact (proj1 (Forall_lookup _ _) Hok i old Hi).
Qed.

Lemma delete_preserves_tags id bookmarks :
  Forall tags_ok bookmarks →
  Forall tags_ok (delete_bookmarks_id id bookmarks).2.
Proof.
  intros Hok. unfold delete_bookmarks_id.
  destruct (findIndex id bookmarks) as [[i old]|]; simpl; [|done].
  by apply Forall_delete.
Qed.

Lemma lowercase_strings_ok (l : list string) b :
  lowercase_is_fixed →
  bk_tags b = Some (JArr (JStr <$> l)) →
  length l ≤ 5 →
  forallb ascii_lowercase l = true →
  tags_ok b.
Proof.
  intros Hfix Hb Hlen Hlow. unfold tags_ok. rewrite Hb.
  exists (JStr <$> l). split; [done|]. split; [by rewrite length_fmap|].
  intros e He. apply list_elem_of_fmap in He as (s & -> & Hs).
  exists s. split; [done|]. apply Hfix.
  apply list_elem_of_In in Hs. by apply (proj1 (forallb_forall _ _) Hlow).
Qed.

Lemma seed_tags_ok ids times :
  lowercase_is_fixed → Forall tags_ok (seed ids times).
Proof.
  intros Hfix. unfold seed.
  repeat apply Forall_cons_2; try apply Forall_nil_2.
  - apply (lowercase_strings_ok ["react"; "javascript"; "frontend"]); [done | reflexivity | simpl; lia | reflexivity].
  - apply (lowercase_strings_ok ["nodejs"; "javascript"; "backend"]); [done | reflexivity | simpl; lia | reflexivity].
  - apply (lowercase_strings_ok ["css"; "tailwind"; "frontend"]); [done | reflexivity | simpl; lia | reflexivity].
  - apply (lowercase_strings_ok ["express"; "nodejs"; "backend"]); [done | reflexivity | simpl; lia | reflexivity].
  - apply (lowercase_strings_ok ["vite"; "build-tool"; "frontend"]); [done | reflexivity | simpl; lia | reflexivity].
Qed.

(** C6. In every store reached from the seed by create, update and delete
    requests, every bookmark that has a tags field has a sequence of at
    most five tags there, each a string equal to its own lowercase form
    (given that [toLowerCase] leaves lower-case ASCII text, which the seed
    tags are, unchanged). *)
Theorem reachable_tags_invariant ids times bookmarks :
  lowercase_is_fixed →
  reachable ids times bookmarks →
  ∀ b, b ∈ bookmarks → tags_ok b.
Proof.
  intros Hfix Hreach. apply Forall_forall.
  induction Hreach as [|req bookmarks _ IH].
  - by apply seed_tags_ok.
  - destruct req as [uuid now body|id body|id]; simpl.
    + by apply post_preserves_tags.
    + by apply put_preserves_tags.
    + by apply delete_preserves_tags.
Qed.

(** Running a trace of requests from a reachable store stays within the
    reachable stores. *)
Lemma reachable_trace ids times (trace : list request) bookmarks :
  reachable ids times bookmarks →
  reachable ids times (foldl (λ s req, step req s) bookmarks trace).
Proof.
  revert bookmarks. induction trace as [|req trace IH]; intros bookmarks Hr.
  - exact Hr.
  - simpl. apply IH. by apply reach_step.
Qed.

End TagsInvariant.

(** The sample runtime's [toLowerCase] meets the assumption of C6. *)
Lemma sample_lowercase_is_fixed : lowercase_is_fixed (rt:=Sample.runtime).
Proof.
  intros s. change (toLowerCase s) with (Sample.ascii_lower s).
  induction s as [|c rest IH]; [done|].
  change (ascii_lowercase (String c rest))
    with ((Ascii.nat_of_ascii c <? 128)
          && negb ((65 <=? Ascii.nat_of_ascii c) && (Ascii.nat_of_ascii c <=? 90))
          && ascii_lowercase rest).
  change (Sample.ascii_lower (String c rest))
    with (String (Sample.lower_char c) (Sample.ascii_lower rest)).
  intros Hs. apply andb_prop in Hs as [Hs Hrest].
  apply andb_prop in Hs as [_ Hup].
  rewrite IH by done. unfold Sample.lower_char.
  apply negb_true_iff in Hup. by rewrite Hup.
Qed.

(** C6 after a create, a rejected and an accepted update, and a delete. *)
Lemma reachable_tags_invariant_witness :
  let trace :=
    [Create "u" "2024-01-02T00:00:00.000Z"
       (JObj [("url", JStr "https://example.com"); ("title", JStr "Example");
              ("tags", JArr [JStr "test"; JStr "example"])]);
     Update "id-1" (JObj [("tags", JArr [JStr "Node"])]);
     Update "id-2" (JObj [("tags", JArr [])]);
     Delete "id-0"] in
  let store :=
    foldl (λ s req, step (rt:=Sample.runtime) req s)
      (seed Sample.ids Sample.times) trace in
  length store = 5 ∧ ∀ b, b ∈ store → tags_ok (rt:=Sample.runtime) b.
Proof.
  intros trace store. split; [reflexivity|].
  apply (reachable_tags_invariant (rt:=Sample.runtime) Sample.ids Sample.times).
  - exact sample_lowercase_is_fixed.
  - apply reachable_trace, reach_seed.
Defined.

(** * Further properties of the server *)

Section Answering.
Context {rt : Runtime}.

Lemma post_cases uuid now body bookmarks :
  (∃ e, post_bookmarks uuid now body bookmarks = (Failure 500 e, bookmarks))
  ∨ (∃ e, post_bookmarks uuid now body bookmarks = (Failure 400 e, bookmarks))
  ∨ ∃ p, destructure body = Ret p ∧ validate_create p = Ret []
         ∧ post_bookmarks uuid now body bookmarks
           = (Success 201 (One (Bookmark uuid (url p) (title p)
                                  (or_undefined (description p))
                                  (or_undefined (tags p)) now)),
              bookmarks ++ [Bookmark uuid (url p) (title p)
                              (or_undefined (description p))
                              (or_undefined (tags p)) now]).
Proof.
  unfold post_bookmarks.
  destruct (destructure body) as [p|] eqn:Hd; simpl; [|eauto].
  destruct (validate_create p) as [errors|] eqn:Hv; simpl; [|eauto].
  destruct (0 <? length errors) eqn:El; simpl; [eauto|].
  apply length_0_nil in El as ->. right. right. exists p. auto.
Qed.

Lemma put_cases id body bookmarks :
  (∃ e, put_bookmarks_id id body bookmarks = (Failure 500 e, bookmarks))
  ∨ (∃ e, put_bookmarks_id id body bookmarks = (Failure 404 e, bookmarks))
  ∨ (∃ e, put_bookmarks_id id body bookmarks = (Failure 400 e, bookmarks))
  ∨ ∃ p i old, destructure body = Ret p ∧ validate_update p = Ret []
         ∧ findIndex id bookmarks = Some (i, old)
         ∧ put_bookmarks_id id body bookmarks
           = (Success 200 (One (Bookmark (bk_id old)
                                  (supplied_or (url p) (bk_url old))
                                  (supplied_or (title p) (bk_title old))
                                  (supplied_or (description p) (bk_description old))
                                  (supplied_or (tags p) (bk_tags old))
                                  (bk_createdAt old))),
              <[i := Bookmark (bk_id old)
                       (supplied_or (url p) (bk_url old))
                       (supplied_or (title p) (bk_title old))
                       (supplied_or (description p) (bk_description old))
                       (supplied_or (tags p) (bk_tags old))
                       (bk_createdAt old)]> bookmarks).
Proof.
  unfold put_bookmarks_id.
  destruct (destructure body) as [p|] eqn:Hd; simpl; [|eauto].
  destruct (findIndex id bookmarks) as [[i old]|] eqn:Hf; simpl; [|eauto].
  destruct (validate_update p) as [errors|] eqn:Hv; simpl; [|eauto].
  destruct (0 <? length errors) eqn:El; simpl; [eauto 6|].
  apply length_0_nil in El as ->. do 3 right. exists p, i, old. auto.
Qed.

Lemma delete_cases id bookmarks :
  (findIndex id bookmarks = None
   ∧ delete_bookmarks_id id bookmarks
     = (Failure 404 "Bookmark not found", bookmarks))
  ∨ ∃ i old, findIndex id bookmarks = Some (i, old)
             ∧ delete_bookmarks_id id bookmarks
               = (Success 200 (One old), delete i bookmarks).
Proof.
  unfold delete_bookmarks_id.
  destruct (findIndex id bookmarks) as [[i old]|]; simpl; eauto.
Qed.

(** X1. Every create, update and delete request is answered with one of
    the statuses 200, 201, 400, 404 and 500, and an answer other than 200
    and 201 (also a 500 from a thrown exception) leaves the store as it
    was. *)
Theorem failed_request_mutates_nothing req bookmarks :
  status_of (handle req bookmarks).1 ∈ [200; 201; 400; 404; 500]
  ∧ (status_of (handle req bookmarks).1 ≠ 200 →
     status_of (handle req bookmarks).1 ≠ 201 →
     (handle req bookmarks).2 = bookmarks).
Proof.
  destruct req as [uuid now body|id body|id]; simpl.
  - destruct (post_cases uuid now body bookmarks)
      as [[e ->]|[[e ->]|(p & _ & _ & ->)]]; simpl; split; try done;
      set_solver.
  - destruct (put_cases id body bookmarks)
      as [[e ->]|[[e ->]|[[e ->]|(p & i & old & _ & _ & _ & ->)]]]; simpl;
      split; try done; set_solver.
  - destruct (delete_cases id bookmarks) as [[_ ->]|(i & old & _ & ->)]; simpl;
      split; try done; set_solver.
Qed.

Lemma ids_of_first_match id bookmarks i old :
  findIndex id bookmarks = Some (i, old) → ids_of bookmarks !! i = Some id.
Proof.
  intros Hf. apply findIndex_Some in Hf as (Hi & Hid & _).
  unfold ids_of. rewrite list_lookup_fmap, Hi. simpl. by rewrite Hid.
Qed.

Lemma NoDup_delete_gone (l : list string) i x :
  NoDup l → l !! i = Some x → x ∉ delete i l.
Proof.
  intros Hnd Hi. rewrite <- (take_drop_middle l i x Hi) in Hnd.
  rewrite delete_take_drop. apply NoDup_app in Hnd as (_ & Hne & Hr).
  apply NoDup_cons in Hr as [Hx _].
  intros Hin. apply elem_of_app in Hin as [Hin|Hin]; [|done].
  apply (Hne x Hin). by left.
Qed.

(** X2. Delete of an id that some stored bookmark has removes the first
    bookmark with that id and nothing else, and answers 200 with the
    removed record; the store is one shorter.  When the ids of the store
    are distinct, no bookmark with the id is left, and a second delete of
    the id is answered 404. *)
Theorem delete_removes_first_match id bookmarks :
  id ∈ ids_of bookmarks →
  ∃ i old,
    bookmarks !! i = Some old
    ∧ bk_id old = id
    ∧ (∀ j b, bookmarks !! j = Some b → j < i → bk_id b ≠ id)
    ∧ delete_bookmarks_id id bookmarks
      = (Success 200 (One old), delete i bookmarks)
    ∧ length (delete i bookmarks) + 1 = length bookmarks
    ∧ (NoDup (ids_of bookmarks) →
       (id ∉ ids_of (delete i bookmarks))
       ∧ delete_bookmarks_id id (delete i bookmarks)
         = (Failure 404 "Bookmark not found", delete i bookmarks)).
Proof.
  intros Hin. apply list_elem_of_fmap in Hin as (b & Hb & Hin).
  destruct (list_find_elem_of (λ b, bk_id b = id) bookmarks b Hin)
    as [[i old] Hf]; [done|].
  fold (findIndex id bookmarks) in Hf.
  pose proof (ids_of_first_match _ _ _ _ Hf) as Hids.
  destruct (delete_cases id bookmarks) as [[Hn _]|(i' & old' & Hf' & Hdel)];
    [congruence|].
  rewrite Hf in Hf'. injection Hf' as <- <-.
  apply findIndex_Some in Hf as (Hi & Hid & Hfirst).
  exists i, old. repeat split; try done.
  - rewrite length_delete by eauto.
    apply lookup_lt_Some in Hi. lia.
  - unfold ids_of. rewrite list_fmap_delete. by apply NoDup_delete_gone.
  - destruct (delete_cases id (delete i bookmarks))
      as [[_ ->]|(j & x & Hfj & _)]; [done|].
    apply ids_of_first_match in Hfj. apply list_elem_of_lookup_2 in Hfj.
    unfold ids_of in Hfj. rewrite list_fmap_delete in Hfj.
    by apply NoDup_delete_gone in Hfj.
Qed.

Lemma put_ids id body bookmarks :
  ids_of (put_bookmarks_id id body bookmarks).2 = ids_of bookmarks.
Proof.
  destruct (put_cases id body bookmarks)
    as [[e ->]|[[e ->]|[[e ->]|(p & i & old & _ & _ & Hf & ->)]]]; try done.
  simpl. unfold ids_of. rewrite list_fmap_insert. simpl.
  apply list_insert_id. apply findIndex_Some in Hf as (Hi & _ & _).
  by rewrite list_lookup_fmap, Hi.
Qed.

(** X3. Distinct ids stay distinct: a store whose ids are pairwise
    different is taken by every request to such a store, provided the id
    generated for a create is not in the store already.  Update never
    changes the list of ids. *)
Theorem ids_stay_unique req bookmarks :
  NoDup (ids_of bookmarks) →
  fresh req bookmarks →
  NoDup (ids_of (handle req bookmarks).2)
  ∧ ∀ id body, ids_of (put_bookmarks_id id body bookmarks).2 = ids_of bookmarks.
Proof.
  intros Hnd Hfresh. split; [|intros; apply put_ids].
  destruct req as [uuid now body|id body|id]; simpl.
  - destruct (post_cases uuid now body bookmarks)
      as [[e ->]|[[e ->]|(p & _ & _ & ->)]]; simpl; try done.
    unfold ids_of. rewrite fmap_app. simpl. apply NoDup_app.
    split; [done|]. split; [|apply NoDup_singleton].
    intros x Hx Hx'. apply list_elem_of_singleton in Hx' as ->. by apply Hfresh.
  - by rewrite put_ids.
  - destruct (delete_cases id bookmarks) as [[_ ->]|(i & old & _ & ->)]; simpl;
      [done|].
    unfold ids_of. rewrite list_fmap_delete.
    eapply sublist_NoDup; [exact Hnd | apply sublist_delete].
Qed.

(** X4. Create followed by delete of the generated id gives back the store
    as it was before the create, and the delete returns the record the
    create returned (the generated id not being in the store before). *)
Theorem create_then_delete_restores uuid now body bookmarks b bookmarks' :
  post_bookmarks uuid now body bookmarks = (Success 201 (One b), bookmarks') →
  uuid ∉ ids_of bookmarks →
  delete_bookmarks_id uuid bookmarks' = (Success 200 (One b), bookmarks).
Proof.
  intros Hpost Hfresh.
  destruct (post_cases uuid now body bookmarks)
    as [[e He]|[[e He]|(p & _ & _ & He)]]; rewrite He in Hpost; try done.
  injection Hpost as <- <-.
  assert (findIndex uuid bookmarks = None) as Hnone.
  { apply findIndex_None. intros x Hx Hid. apply Hfresh.
    apply list_elem_of_fmap. eauto. }
  unfold delete_bookmarks_id, findIndex in *.
  rewrite list_find_app_r by done. simpl. rewrite decide_True by done. simpl.
  rewrite (delete_middle bookmarks []). by rewrite app_nil_r.
Qed.

Lemma supplied_or_twice x old : supplied_or x (supplied_or x old) = supplied_or x old.
Proof. unfold supplied_or. by case_bool_decide. Qed.

(** X5. Update is idempotent: repeating a successful update with the same
    id and payload is answered with the same record and leaves the store
    as the first update left it. *)
Theorem update_is_idempotent id body bookmarks b' bookmarks' :
  put_bookmarks_id id body bookmarks = (Success 200 (One b'), bookmarks') →
  put_bookmarks_id id body bookmarks' = (Success 200 (One b'), bookmarks').
Proof.
  intros Hput.
  destruct (put_cases id body bookmarks)
    as [[e He]|[[e He]|[[e He]|(p & i & old & Hd & Hv & Hf & He)]]];
    rewrite He in Hput; try done.
  injection Hput as <- <-.
  pose proof Hf as (Hi & Hid & Hfirst)%findIndex_Some.
  set (b' := Bookmark _ _ _ _ _ _).
  assert (findIndex id (<[i:=b']> bookmarks) = Some (i, b')) as Hf'.
  { apply list_find_Some. split; [|split].
    - apply list_lookup_insert_eq. by apply lookup_lt_Some in Hi.
    - done.
    - intros j y Hj Hlt. rewrite list_lookup_insert_ne in Hj by lia. eauto. }
  unfold put_bookmarks_id. rewrite Hd. simpl. rewrite Hf', Hv. simpl.
  rewrite !supplied_or_twice, list_insert_insert_eq. reflexivity.
Qed.

End Answering.

Section ListingMore.
Context {rt : Runtime}.

Lemma filter_result_sublist {A} (f : A → result bool) (l r : list A) :
  filter_result f l = Ret r → r `sublist_of` l.
Proof.
  revert r. induction l as [|x rest IH]; intros r; simpl.
  - intros [= <-]. constructor.
  - intros Hb. apply bind_Ret in Hb as (keep & _ & Hb).
    apply bind_Ret in Hb as (kept & Hk & [= <-]).
    destruct keep; [apply sublist_skip | apply sublist_cons]; by apply IH.
Qed.

(** X6. The list route answers either 200 with bookmarks of the store, in
    the store's order and none twice, or 500 with "Internal server error";
    it never returns a record that is not stored. *)
Theorem list_returns_sublist tag bookmarks :
  (∃ r, get_bookmarks tag bookmarks = Success 200 (Many r)
        ∧ r `sublist_of` bookmarks)
  ∨ get_bookmarks tag bookmarks = Failure 500 "Internal server error".
Proof.
  unfold get_bookmarks.
  destruct tag as [t|]; [destruct (truthy t)|]; try (left; eauto; fail).
  destruct (filter_result (tag_matches t) bookmarks) as [r|] eqn:Hr; [|by right].
  left. exists r. split; [done|]. by eapply filter_result_sublist.
Qed.

Lemma tag_matches_nonstring (t : json) b :
  (∀ s, t ≠ JStr s) →
  tag_matches t b = if truthy_opt (bk_tags b) then Throw else Ret false.
Proof.
  intros Ht. unfold tag_matches. destruct (truthy_opt (bk_tags b)); [|done].
  destruct t as [| | |s| |]; try done. by destruct (Ht s).
Qed.

Lemma filter_result_nonstring (t : json) bookmarks :
  (∀ s, t ≠ JStr s) →
  filter_result (tag_matches t) bookmarks
  = if existsb (λ b, truthy_opt (bk_tags b)) bookmarks then Throw else Ret [].
Proof.
  intros Ht. induction bookmarks as [|b rest IH]; [done|].
  cbn [filter_result existsb]. rewrite IH, tag_matches_nonstring by done.
  destruct (truthy_opt (bk_tags b)); simpl; [done|].
  by destruct (existsb _ rest).
Qed.

(** X7. A filter value that is not a text (the query parser delivers an
    array for a repeated [tag] parameter) is answered 500 as soon as one
    stored bookmark has a truthy tags field, and 200 with an empty list
    otherwise. *)
Theorem list_with_nonstring_filter (t : json) bookmarks :
  truthy t = true →
  (∀ s, t ≠ JStr s) →
  get_bookmarks (Some t) bookmarks
  = if existsb (λ b, truthy_opt (bk_tags b)) bookmarks
    then Failure 500 "Internal server error"
    else Success 200 (Many []).
Proof.
  intros Htr Ht. unfold get_bookmarks. rewrite Htr.
  rewrite filter_result_nonstring by done.
  by destruct (existsb _ bookmarks).
Qed.

Lemma filter_result_ext {A} (f g : A → result bool) (l : list A) :
  (∀ x, f x = g x) → filter_result f l = filter_result g l.
Proof.
  intros Hfg. induction l as [|x rest IH]; [done|].
  simpl. by rewrite Hfg, IH.
Qed.

(** X8. The tag filter ignores the case of the filter text: two non-empty
    filter values with the same lowercase form get the same answer, on
    every store. *)
Theorem list_ignores_case_of_filter (t1 t2 : string) bookmarks :
  toLowerCase t1 = toLowerCase t2 →
  t1 ≠ "" →
  t2 ≠ "" →
  get_bookmarks (Some (JStr t1)) bookmarks
  = get_bookmarks (Some (JStr t2)) bookmarks.
Proof.
  intros Hl H1 H2. unfold get_bookmarks. simpl.
  apply String.eqb_neq in H1, H2. rewrite H1, H2. simpl.
  rewrite (filter_result_ext (tag_matches (JStr t1)) (tag_matches (JStr t2)));
    [done|].
  intros b. unfold tag_matches. simpl. by rewrite Hl.
Qed.

Lemma post_tags_are_sequences uuid now body bookmarks :
  tags_are_sequences bookmarks →
  tags_are_sequences (post_bookmarks uuid now body bookmarks).2.
Proof.
  intros Hwf.
  destruct (post_cases uuid now body bookmarks)
    as [[e ->]|[[e ->]|(p & _ & Hv & ->)]]; try done.
  simpl. intros b Hb. apply elem_of_app in Hb as [Hb|Hb]; [by apply Hwf|].
  apply list_elem_of_singleton in Hb as ->. simpl. unfold or_undefined.
  destruct (truthy_opt (tags p)) eqn:Et; [|by left].
  destruct (validate_create_accepts_tags p Hv Et) as (elems & -> & _).
  right. eauto.
Qed.

Lemma put_tags_are_sequences id body bookmarks :
  tags_are_sequences bookmarks →
  tags_are_sequences (put_bookmarks_id id body bookmarks).2.
Proof.
  intros Hwf.
  destruct (put_cases id body bookmarks)
    as [[e ->]|[[e ->]|[[e ->]|(p & i & old & _ & Hv & Hf & ->)]]]; try done.
  simpl. apply findIndex_Some in Hf as (Hi & _ & _).
  intros b Hb. apply list_elem_of_lookup in Hb as [j Hj].
  apply list_lookup_insert_Some in Hj as [(_ & <- & _)|(_ & Hj)].
  - simpl. unfold supplied_or.
    destruct (bool_decide_reflect (tags p ≠ None)) as [Ht|Ht].
    + destruct (validate_update_accepts_tags p Hv Ht) as (elems & -> & _).
      right. eauto.
    + apply Hwf. by eapply list_elem_of_lookup_2.
  - apply Hwf. by eapply list_elem_of_lookup_2.
Qed.

Lemma reachable_tags_are_sequences ids times bookmarks :
  reachable ids times bookmarks → tags_are_sequences bookmarks.
Proof.
  induction 1 as [|req bookmarks _ IH]; [apply seed_tags_are_sequences|].
  destruct req as [uuid now body|id body|id]; simpl.
  - by apply post_tags_are_sequences.
  - by apply put_tags_are_sequences.
  - destruct (delete_cases id bookmarks) as [[_ ->]|(i & old & _ & ->)];
      [done|]. simpl.
    intros b Hb. apply IH. by eapply list_elem_of_delete_inv.
Qed.

(** X9. On every store reached from the seed by create, update and delete
    requests, the list route answers 200 for every filter text: the tag
    filter cannot fail on what the write handlers store. *)
Theorem reachable_list_never_fails ids times bookmarks (t : string) :
  reachable ids times bookmarks →
  ∃ r, get_bookmarks (Some (JStr t)) bookmarks = Success 200 (Many r)
       ∧ r `sublist_of` bookmarks.
Proof.
  intros Hr. apply reachable_tags_are_sequences in Hr.
  unfold get_bookmarks. simpl.
  destruct (String.eqb t ""); simpl; [eauto|].
  rewrite filter_by_tag by done. eexists. split; [done|]. apply sublist_filter.
Qed.

End ListingMore.

Section MetadataMore.
Context {rt : Runtime}.

Lemma fetchMetadata_nonempty page t : fetchMetadata page = Some t → t ≠ "".
Proof.
  destruct page as [|html]; simpl; [done|].
  destruct (String.eqb _ "") eqn:E; [done|].
  intros [= <-]. by apply String.eqb_neq.
Qed.

(** X10. The metadata route answers 400 "Valid URL is required" exactly
    when the url parameter is missing, empty or not a valid URL, whatever
    the fetch would give; otherwise it answers 200 with a title that is
    never empty: the trimmed page title when the fetch found one, and the
    text "Unable to fetch title" when not. *)
Theorem metadata_answers url page :
  (get_bookmarks_metadata url page = Failure 400 "Valid URL is required"
   ↔ truthy_opt url = false ∨ isValidUrl url = false)
  ∧ (truthy_opt url = true → isValidUrl url = true →
     ∃ t, get_bookmarks_metadata url page = Success 200 (Title t)
          ∧ t ≠ ""
          ∧ (fetchMetadata page = Some t
             ∨ fetchMetadata page = None ∧ t = "Unable to fetch title")).
Proof.
  unfold get_bookmarks_metadata. split.
  - destruct (truthy_opt url), (isValidUrl url); simpl; naive_solver.
  - intros -> ->. simpl.
    destruct (fetchMetadata page) as [t|] eqn:Hf.
    + exists t. split; [done|]. split; [by eapply fetchMetadata_nonempty | auto].
    + eexists. split; [done|]. split; [done | auto].
Qed.

End MetadataMore.

Section Entries.
Context {rt : Runtime}.

Lemma check_title_accepts t e :
  check_title t e = Ret [] →
  e = [] ∧ truthy_opt t = true ∧ length_gt t 200 = Ret false.
Proof.
  intros Hc. apply check_title_cases in Hc as [[_ He]|[(_ & _ & He)|(Ht & Hl & <-)]].
  - symmetry in He. by apply push_not_nil in He.
  - symmetry in He. by apply push_not_nil in He.
  - done.
Qed.

Lemma check_description_accepts d e :
  check_description d e = Ret [] →
  e = [] ∧ (truthy_opt d = true → length_gt d 500 = Ret false).
Proof.
  intros Hc.
  apply check_description_cases in Hc as [[Hd <-]|[(_ & _ & He)|(Ht & Hl & <-)]].
  - split; [done|]. congruence.
  - symmetry in He. by apply push_not_nil in He.
  - done.
Qed.

Lemma validate_create_accepts p :
  validate_create p = Ret [] →
  truthy_opt (url p) = true
  ∧ isValidUrl (url p) = true
  ∧ truthy_opt (title p) = true
  ∧ length_gt (title p) 200 = Ret false
  ∧ (truthy_opt (description p) = true →
     length_gt (description p) 500 = Ret false).
Proof.
  unfold validate_create. intros Hv.
  apply bind_Ret in Hv as (e2 & H2 & Hv).
  apply bind_Ret in Hv as (e3 & H3 & Hv).
  assert (e3 = []) as ->.
  { destruct (truthy_opt (tags p)); [by apply check_tags_accepts in Hv as [? _]|].
    by injection Hv. }
  apply check_description_accepts in H3 as [-> Hd].
  apply check_title_accepts in H2 as (He1 & Ht & Hl).
  unfold push in He1.
  destruct (truthy_opt (url p)); simpl in He1; [|done].
  destruct (isValidUrl (url p)); simpl in He1; done.
Qed.

Lemma validate_update_accepts p :
  validate_update p = Ret [] →
  (url p ≠ None → isValidUrl (url p) = true)
  ∧ (title p ≠ None →
     truthy_opt (title p) = true ∧ length_gt (title p) 200 = Ret false)
  ∧ (description p ≠ None → truthy_opt (description p) = true →
     length_gt (description p) 500 = Ret false).
Proof.
  intros Hv. apply validate_update_inv in Hv as (e2 & e3 & H2 & H3 & H4).
  assert (e3 = []) as ->.
  { destruct (bool_decide (tags p ≠ None));
      [by apply check_tags_accepts in H4 as [? _] | by injection H4]. }
  assert (e2 = [] ∧ (description p ≠ None → truthy_opt (description p) = true →
                     length_gt (description p) 500 = Ret false)) as [-> Hd].
  { destruct (bool_decide_reflect (description p ≠ None)) as [?|?].
    - apply check_description_accepts in H3 as [? ?]. auto.
    - injection H3 as ->. done. }
  assert (update_url_errors p = []
          ∧ (title p ≠ None → truthy_opt (title p) = true
                              ∧ length_gt (title p) 200 = Ret false))
    as [Hu Ht].
  { destruct (bool_decide_reflect (title p ≠ None)) as [?|?].
    - apply check_title_accepts in H2 as (? & ? & ?). auto.
    - injection H2 as ->. done. }
  split; [|done]. intros Hs. unfold update_url_errors in Hu.
  rewrite bool_decide_true in Hu by done.
  by destruct (isValidUrl (url p)).
Qed.

Lemma or_undefined_truthy d :
  truthy_opt (or_undefined d) = true → or_undefined d = d ∧ truthy_opt d = true.
Proof. unfold or_undefined. by destruct (truthy_opt d) eqn:E. Qed.

(** X11. The field rules are an invariant of the store: when every stored
    bookmark has a url that passes the URL check, a truthy title whose
    length test against 200 is false and, if its description is truthy, a
    description whose length test against 500 is false, the same holds
    after every create, update and delete request. *)
Theorem requests_keep_field_rules req bookmarks :
  Forall entry_ok bookmarks →
  Forall entry_ok (handle req bookmarks).2.
Proof.
  intros Hok. destruct req as [uuid now body|id body|id]; simpl.
  - destruct (post_cases uuid now body bookmarks)
      as [[e ->]|[[e ->]|(p & _ & Hv & ->)]]; try done.
    simpl. apply Forall_app. split; [done|]. apply Forall_singleton.
    apply validate_create_accepts in Hv as (Hu & Hvalid & Ht & Hl & Hd).
    repeat split; simpl; try done.
    intros [-> Htr]%or_undefined_truthy. auto.
  - destruct (put_cases id body bookmarks)
      as [[e ->]|[[e ->]|[[e ->]|(p & i & old & _ & Hv & Hf & ->)]]]; try done.
    simpl. apply findIndex_Some in Hf as (Hi & _ & _).
    pose proof (proj1 (Forall_lookup _ _) Hok i old Hi) as (Ou & Ot & Ol & Od).
    apply validate_update_accepts in Hv as (Hu & Ht & Hd).
    apply Forall_insert; [done|]. unfold entry_ok, supplied_or. simpl.
    repeat split.
    + destruct (bool_decide_reflect (url p ≠ None)); auto.
    + destruct (bool_decide_reflect (title p ≠ None)) as [Hs|Hs]; [|done].
      by apply Ht.
    + destruct (bool_decide_reflect (title p ≠ None)) as [Hs|Hs]; [|done].
      by apply Ht.
    + destruct (bool_decide_reflect (description p ≠ None)); auto.
  - destruct (delete_cases id bookmarks) as [[_ ->]|(i & old & _ & ->)];
      [done|]. simpl. by apply Forall_delete.
Qed.

End Entries.

(** * Properties of the client *)

Lemma well_spaced_seq prev n :
  well_spaced prev (Page <$> seq (prev + 1) n).
Proof.
  revert prev. induction n as [|n IH]; intros prev; simpl; [done|].
  split; [done|]. replace (S (prev + 1)) with ((prev + 1) + 1) by lia. apply IH.
Qed.

(** X12. The page buttons read as the run of pages 1 to [totalPages]:
    they start at page 1, two numbers next to each other are consecutive
    pages, an ellipsis always leaves out one page at least, the last item
    is the last page, and there are never more than seven items. *)
Theorem page_items_are_well_spaced currentPage totalPages :
  well_spaced 0 (getPageNumbers currentPage totalPages)
  ∧ length (getPageNumbers currentPage totalPages) ≤ 7
  ∧ (1 ≤ totalPages →
     last (getPageNumbers currentPage totalPages) = Some (Page totalPages)).
Proof.
  unfold getPageNumbers.
  destruct (totalPages <=? 5) eqn:E5.
  - apply Nat.leb_le in E5. split; [apply (well_spaced_seq 0)|].
    split; [rewrite length_fmap, length_seq; lia|].
    intros H1. destruct totalPages as [|n]; [lia|].
    rewrite seq_S, fmap_app. simpl. by rewrite last_snoc.
  - apply Nat.leb_gt in E5.
    destruct (currentPage <=? 3) eqn:E3; [simpl; repeat split; lia|].
    apply Nat.leb_gt in E3.
    destruct (totalPages - 2 <=? currentPage) eqn:Et.
    + simpl. repeat split; lia.
    + apply Nat.leb_gt in Et. simpl. repeat split; lia.
Qed.

(** X13. The current page is always among the page buttons, together with
    the first and the last page. *)
Theorem current_page_has_a_button currentPage totalPages :
  1 ≤ currentPage →
  currentPage ≤ totalPages →
  Page currentPage ∈ getPageNumbers currentPage totalPages
  ∧ Page 1 ∈ getPageNumbers currentPage totalPages
  ∧ Page totalPages ∈ getPageNumbers currentPage totalPages.
Proof.
  intros H1 Ht. unfold getPageNumbers.
  destruct (totalPages <=? 5) eqn:E5.
  - repeat split; apply list_elem_of_fmap_2, elem_of_seq; lia.
  - apply Nat.leb_gt in E5.
    destruct (currentPage <=? 3) eqn:E3.
    + apply Nat.leb_le in E3.
      assert (currentPage = 1 ∨ currentPage = 2 ∨ currentPage = 3)
        as [-> | [-> | ->]] by lia; set_solver.
    + apply Nat.leb_gt in E3.
      destruct (totalPages - 2 <=? currentPage) eqn:Et; [|set_solver].
      apply Nat.leb_le in Et.
      assert (currentPage = totalPages - 2 ∨ currentPage = totalPages - 1
              ∨ currentPage = totalPages) as [-> | [-> | ->]] by lia; set_solver.
Qed.

Lemma current_page_has_a_button_witness :
  Page 5 ∈ getPageNumbers 5 9 ∧ Page 1 ∈ getPageNumbers 5 9
  ∧ Page 9 ∈ getPageNumbers 5 9
  ∧ getPageNumbers 5 9
    = [Page 1; Ellipsis; Page 4; Page 5; Page 6; Ellipsis; Page 9].
Proof.
  split; [|split; [|split; [|reflexivity]]];
    apply (current_page_has_a_button 5 9); lia.
Defined.

Section Window.
Context {A : Type}.
Implicit Types l : list A.

Lemma currentBookmarks_window p l :
  1 ≤ p →
  currentBookmarks p l = take itemsPerPage (drop ((p - 1) * itemsPerPage) l).
Proof.
  intros Hp. unfold currentBookmarks, slice, itemsPerPage.
  f_equal; [lia|]. f_equal. lia.
Qed.

Lemma totalPages_bounds l :
  length l ≤ totalPages l * itemsPerPage
  ∧ (0 < length l → (totalPages l - 1) * itemsPerPage < length l).
Proof.
  unfold totalPages, ceil_div, itemsPerPage. change (9 - 1) with 8.
  pose proof (Nat.div_mod_eq (length l + 8) 9) as Hd.
  pose proof (Nat.mod_upper_bound (length l + 8) 9 ltac:(lia)) as Hm.
  lia.
Qed.

Lemma pages_concat l k :
  concat ((λ p, currentBookmarks p l) <$> seq 1 k) = take (k * itemsPerPage) l.
Proof.
  induction k as [|k IH]; [done|].
  rewrite seq_S, fmap_app, concat_app, IH. simpl.
  rewrite app_nil_r, currentBookmarks_window by lia.
  replace (S k - 1) with k by lia.
  rewrite take_take_drop. f_equal. unfold itemsPerPage. lia.
Qed.

(** X14. The pages partition the list that is shown: the windows of the
    pages 1 to [totalPages], one after the other, are the whole list in
    its order; each of these pages shows between one and nine bookmarks,
    and every later page is empty. *)
Theorem pages_partition_the_list l :
  concat ((λ p, currentBookmarks p l) <$> seq 1 (totalPages l)) = l
  ∧ (∀ p, 1 ≤ p → p ≤ totalPages l →
          1 ≤ length (currentBookmarks p l)
          ∧ length (currentBookmarks p l) ≤ itemsPerPage)
  ∧ (∀ p, totalPages l < p → currentBookmarks p l = []).
Proof.
  pose proof (totalPages_bounds l) as [Hup Hlow].
  split; [|split].
  - rewrite pages_concat. by apply take_ge.
  - intros p H1 Hp. rewrite currentBookmarks_window by done.
    rewrite length_take, length_drop.
    assert (0 < length l) as Hpos.
    { destruct l; [|simpl; lia]. unfold totalPages, ceil_div in Hp.
      simpl in Hp. lia. }
    specialize (Hlow Hpos). unfold itemsPerPage in *. nia.
  - intros p Hp. rewrite currentBookmarks_window by lia.
    rewrite drop_ge; [done|]. unfold itemsPerPage in *. nia.
Qed.

End Window.

(** ** The shortened description *)

Lemma length_append (s t : string) :
  String.length (s +:+ t) = String.length s + String.length t.
Proof. induction s as [|c s IH]; simpl; [done|]. by rewrite IH. Qed.

Lemma length_substring_0 n (s : string) :
  String.length (String.substring 0 n s) = n `min` String.length s.
Proof.
  revert s. induction n as [|n IH]; intros [|c s]; simpl; try done.
  by rewrite IH.
Qed.

Lemma substring_0_append n (s t : string) :
  n ≤ String.length s →
  String.substring 0 n (s +:+ t) = String.substring 0 n s.
Proof.
  revert s. induction n as [|n IH]; intros [|c s]; simpl; try done;
    try lia; try (by destruct t).
  intros Hn. rewrite IH by lia. done.
Qed.

Lemma substring_0_twice n (s : string) :
  String.substring 0 n (String.substring 0 n s) = String.substring 0 n s.
Proof.
  revert s. induction n as [|n IH]; intros [|c s]; simpl; try done.
  by rewrite IH.
Qed.

(** X15. The shortened description is never longer than [maxLength + 3]:
    a text of at most [maxLength] characters is shown as it is, a longer
    one as its first [maxLength] characters followed by three dots; and
    shortening a shortened text changes nothing. *)
Theorem truncated_description_is_bounded (text : string) (maxLength : nat) :
  String.length (truncateDescription text maxLength) ≤ maxLength + 3
  ∧ (String.length text ≤ maxLength → truncateDescription text maxLength = text)
  ∧ (maxLength < String.length text →
     truncateDescription text maxLength
     = String.substring 0 maxLength text +:+ "..."
     ∧ String.prefix (String.substring 0 maxLength text) text = true)
  ∧ truncateDescription (truncateDescription text maxLength) maxLength
    = truncateDescription text maxLength.
Proof.
  assert (∀ s, String.length s ≤ maxLength → truncateDescription s maxLength = s)
    as Hshort.
  { intros s Hs. unfold truncateDescription.
    destruct (String.eqb s "") eqn:E; [by apply String.eqb_eq in E|].
    apply Nat.leb_le in Hs. by rewrite Hs. }
  assert (∀ s, maxLength < String.length s →
            truncateDescription s maxLength
            = String.substring 0 maxLength s +:+ "...") as Hlong.
  { intros s Hs. unfold truncateDescription.
    destruct (String.eqb s "") eqn:E.
    { apply String.eqb_eq in E as ->. simpl in Hs. lia. }
    apply Nat.leb_gt in Hs. by rewrite Hs. }
  destruct (decide (String.length text ≤ maxLength)) as [Hle|Hgt].
  - rewrite !Hshort by (rewrite ?Hshort; done).
    repeat split; try done; lia.
  - assert (maxLength < String.length text) as Hlt by lia.
    assert (String.length (String.substring 0 maxLength text) = maxLength) as Hsub.
    { rewrite length_substring_0. lia. }
    rewrite (Hlong text Hlt). repeat split.
    + rewrite length_append, Hsub. simpl. lia.
    + lia.
    + apply String.prefix_correct. by rewrite Hsub.
    + rewrite Hlong by (rewrite length_append, Hsub; simpl; lia).
      rewrite substring_0_append by lia. by rewrite substring_0_twice.
Qed.

(** ** The forms against the server's validation *)

Section FormsAgainstServer.
Context {rt : Runtime}.

Lemma some_not_lowercase_texts (l : list string) :
  some_not_lowercase (JStr <$> l)
  = Ret (existsb (λ tag, negb (String.eqb tag (toLowerCase tag))) l).
Proof.
  induction l as [|s rest IH]; simpl; [done|].
  destruct (String.eqb s (toLowerCase s)); simpl; [exact IH | done].
Qed.

(** When the checked tags are all lowercase, lowercasing them before they
    are sent changes nothing. *)
Lemma sent_tags_checked (tags : string) :
  toLowerCase "" = "" →
  existsb (λ tag, negb (String.eqb tag (toLowerCase tag))) (checked_tags tags)
  = false →
  sent_tags tags = checked_tags tags.
Proof.
  intros Hlow. unfold sent_tags, checked_tags.
  induction (split_commas tags) as [|piece pieces IH]; [done|].
  rewrite !fmap_cons, !filter_cons.
  destruct (decide (trim piece ≠ "")) as [Hne|He].
  - simpl. intros Hex. apply orb_false_elim in Hex as [Hp Hrest].
    apply negb_false_iff, String.eqb_eq in Hp. rewrite <- Hp.
    rewrite decide_True by done. by rewrite IH.
  - apply dec_stable in He. rewrite He, Hlow.
    rewrite decide_False by (by intros ?). exact IH.
Qed.

Lemma trimmed_nonempty (s : string) :
  trim "" = "" → String.eqb (trim s) "" = false → String.eqb s "" = false.
Proof.
  intros Htrim Hs. apply String.eqb_neq. intros ->.
  rewrite Htrim in Hs. done.
Qed.

Lemma form_payload_validates (fd : formData) :
  trim "" = "" →
  toLowerCase "" = "" →
  (validateForm fd).2 = true →
  destructure (bookmarkData fd) = Ret (form_payload fd)
  ∧ validate_create (form_payload fd) = Ret []
  ∧ validate_update (form_payload fd) = Ret [].
Proof.
  intros Htrim Hlow Hok. unfold validateForm in Hok. simpl in Hok.
  apply bool_decide_eq_true in Hok as (Hu & Ht & Hd & Hg).
  destruct (String.eqb (trim (fd_url fd)) "") eqn:Eu; [done|].
  destruct (URL_parses (JStr (fd_url fd))) eqn:Ev; [|done].
  destruct (String.eqb (trim (fd_title fd)) "") eqn:Et; [done|].
  destruct (200 <? String.length (fd_title fd)) eqn:El; [done|].
  apply trimmed_nonempty in Eu, Et; try done.
  assert (check_description
            (if String.eqb (fd_description fd) "" then None
             else Some (JStr (fd_description fd))) [] = Ret []) as Hcd.
  { unfold check_description.
    destruct (String.eqb (fd_description fd) "") eqn:Ed; [done|].
    simpl in *. rewrite Ed. simpl.
    by destruct (500 <? String.length (fd_description fd)). }
  assert (String.eqb (fd_tags fd) "" = false →
          sent_tags (fd_tags fd) = checked_tags (fd_tags fd)
          ∧ check_tags (Some (JArr (JStr <$> checked_tags (fd_tags fd)))) []
            = Ret []) as Hct.
  { intros Eg. rewrite Eg in Hg. simpl in Hg.
    destruct (existsb _ (checked_tags (fd_tags fd))) eqn:Ex; [done|].
    destruct (5 <? length (checked_tags (fd_tags fd))) eqn:E5; [done|].
    split; [by apply sent_tags_checked|].
    unfold check_tags. by rewrite length_fmap, E5, some_not_lowercase_texts, Ex. }
  split; [|split].
  - unfold bookmarkData, form_payload.
    destruct (String.eqb (fd_description fd) ""),
      (String.eqb (fd_tags fd) "") eqn:Eg; try done;
      destruct (Hct eq_refl) as [-> _]; done.
  - unfold validate_create, form_payload, check_title, isValidUrl, push.
    simpl. rewrite Eu, Ev, Et, El. simpl. rewrite Hcd. simpl.
    destruct (String.eqb (fd_tags fd) "") eqn:Eg; [done|].
    change (truthy_opt (Some (JArr _))) with true. cbv iota.
    by destruct (Hct eq_refl) as [_ ->].
  - unfold validate_update, form_payload, check_title, isValidUrl, push.
    simpl. rewrite Ev, Et, El. simpl.
    destruct (String.eqb (fd_description fd) "") eqn:Ed; simpl;
      rewrite ?Hcd; simpl;
      (destruct (String.eqb (fd_tags fd) "") eqn:Eg; [done|]);
      rewrite ?bool_decide_true by done;
      by destruct (Hct eq_refl) as [_ ->].
Qed.

End FormsAgainstServer.

Section FormsAccepted.
Context {rt : Runtime}.

(** X16. A form that passes the client's [validateForm] is accepted by the
    server's create: the body that [handleSubmit] sends is answered 201,
    and the stored record has the form's url and title, its description
    unless that is empty, and its checked tags unless the tags input is
    empty (given that [trim] and [toLowerCase] leave the empty text
    empty). *)
Theorem checked_form_is_created (fd : formData) body uuid now bookmarks :
  trim "" = "" →
  toLowerCase "" = "" →
  handleSubmit fd = Some body →
  ∃ b, post_bookmarks uuid now body bookmarks
       = (Success 201 (One b), bookmarks ++ [b])
       ∧ bk_url b = Some (JStr (fd_url fd))
       ∧ bk_title b = Some (JStr (fd_title fd))
       ∧ bk_description b
         = (if String.eqb (fd_description fd) "" then None
            else Some (JStr (fd_description fd)))
       ∧ bk_tags b
         = (if String.eqb (fd_tags fd) "" then None
            else Some (JArr (JStr <$> checked_tags (fd_tags fd)))).
Proof.
  intros Htrim Hlow Hs. unfold handleSubmit in Hs.
  destruct (validateForm fd).2 eqn:Hok; [|done]. injection Hs as <-.
  destruct (form_payload_validates fd Htrim Hlow Hok) as (Hd & Hv & _).
  destruct (post_cases uuid now (bookmarkData fd) bookmarks)
    as [[e He]|[[e He]|(p & Hp & _ & He)]].
  - unfold post_bookmarks in He. rewrite Hd in He. simpl in He.
    by rewrite Hv in He.
  - unfold post_bookmarks in He. rewrite Hd in He. simpl in He.
    by rewrite Hv in He.
  - rewrite Hd in Hp. injection Hp as <-. eexists. split; [exact He|].
    simpl. repeat split.
    + unfold or_undefined. destruct (String.eqb (fd_description fd) "") eqn:Ed;
        [done|]. simpl. by rewrite Ed.
    + by destruct (String.eqb (fd_tags fd) "").
Qed.


End FormsAccepted.

(** ** The cache of the client against the store of the server *)

Lemma map_at_first_match id (b' : bookmark) (l : list bookmark) i old :
  NoDup (ids_of l) →
  findIndex id l = Some (i, old) →
  (λ b, if decide (bk_id b = id) then b' else b) <$> l = <[i := b']> l.
Proof.
  intros Hnd Hf. pose proof (ids_of_first_match _ _ _ _ Hf) as Hids.
  apply findIndex_Some in Hf as (Hi & Hid & _).
  apply list_eq. intros j. rewrite list_lookup_fmap.
  destruct (decide (j = i)) as [->|Hne].
  - rewrite Hi, list_lookup_insert_eq by (by eapply lookup_lt_Some).
    simpl. by rewrite decide_True.
  - rewrite list_lookup_insert_ne by done.
    destruct (l !! j) as [y|] eqn:Hj; [|done]. simpl.
    rewrite decide_False; [done|]. intros Hy. apply Hne.
    apply (NoDup_lookup (ids_of l) j i id Hnd); [|done].
    unfold ids_of. by rewrite list_lookup_fmap, Hj, <- Hy.
Qed.

Lemma filter_out_first_match id (l : list bookmark) i old :
  NoDup (ids_of l) →
  findIndex id l = Some (i, old) →
  filter (λ b, bk_id b ≠ id) l = delete i l.
Proof.
  intros Hnd Hf. pose proof (ids_of_first_match _ _ _ _ Hf) as Hids.
  apply findIndex_Some in Hf as (Hi & Hid & _).
  assert (∀ j y, l !! j = Some y → j ≠ i → bk_id y ≠ id) as Hother.
  { intros j y Hj Hne Hy. apply Hne.
    apply (NoDup_lookup (ids_of l) j i id Hnd); [|done].
    unfold ids_of. by rewrite list_lookup_fmap, Hj, <- Hy. }
  rewrite delete_take_drop.
  rewrite <- (take_drop_middle l i old Hi) at 1.
  rewrite filter_app, filter_cons, decide_False by (by intros ?).
  assert (∀ k : list bookmark, Forall (λ b, bk_id b ≠ id) k →
            filter (λ b, bk_id b ≠ id) k = k) as Hall.
  { induction k as [|y k IH]; [done|]. intros [Hy Hk]%Forall_cons.
    by rewrite filter_cons, decide_True, IH. }
  rewrite !Hall; [done| |].
  - apply Forall_lookup. intros j y Hj. rewrite lookup_drop in Hj.
    apply (Hother _ _ Hj). lia.
  - apply Forall_lookup. intros j y Hj.
    apply lookup_take_Some in Hj as [Hj Hlt]. apply (Hother _ _ Hj). lia.
Qed.

(** X18. The client's cache mirrors the server's store up to order: when
    the cache holds the same records as a store with distinct ids, it
    still does so after each successful create, update and delete,
    handled on the client with the record the server returned.  After a
    create the new record is first in the cache and last in the store; a
    fetch of the unfiltered list makes the cache the store, in the
    store's order. *)
Theorem cache_mirrors_store {rt : Runtime} (st : app) (bookmarks : list bookmark) :
  app_bookmarks st ≡ₚ bookmarks →
  NoDup (ids_of bookmarks) →
  (∀ uuid now body b bookmarks',
     post_bookmarks uuid now body bookmarks = (Success 201 (One b), bookmarks') →
     app_bookmarks (handleAddBookmark (ReplyOk b) st).1 ≡ₚ bookmarks'
     ∧ head (app_bookmarks (handleAddBookmark (ReplyOk b) st).1) = Some b
     ∧ last bookmarks' = Some b)
  ∧ (∀ id body b' bookmarks',
       put_bookmarks_id id body bookmarks = (Success 200 (One b'), bookmarks') →
       app_bookmarks (handleUpdateBookmark id (ReplyOk b') st).1 ≡ₚ bookmarks')
  ∧ (∀ id old bookmarks',
       delete_bookmarks_id id bookmarks = (Success 200 (One old), bookmarks') →
       app_bookmarks (handleDeleteBookmark id true (ReplyOk old) st)
       ≡ₚ bookmarks')
  ∧ (∀ r, get_bookmarks None bookmarks = Success 200 (Many r) →
          app_bookmarks (fetchBookmarks (ReplyOk r) st) = bookmarks).
Proof.
  intros Hperm Hnd. split; [|split; [|split]]; [| | |by intros r [= <-]].
  - intros uuid now body b bookmarks' Hpost.
    destruct (post_cases uuid now body bookmarks)
      as [[e He]|[[e He]|(p & _ & _ & He)]]; rewrite He in Hpost; try done.
    injection Hpost as <- <-. simpl. split; [|split; [done|]].
    + rewrite Hperm. apply Permutation_cons_append.
    + by rewrite last_snoc.
  - intros id body b' bookmarks' Hput.
    destruct (put_cases id body bookmarks)
      as [[e He]|[[e He]|[[e He]|(p & i & old & _ & _ & Hf & He)]]];
      rewrite He in Hput; try done.
    injection Hput as <- <-. simpl. rewrite Hperm.
    by rewrite (map_at_first_match id _ bookmarks i old).
  - intros id old bookmarks' Hdel.
    destruct (delete_cases id bookmarks) as [[_ He]|(i & x & Hf & He)];
      rewrite He in Hdel; try done.
    injection Hdel as <- <-. simpl. rewrite Hperm.
    by rewrite (filter_out_first_match id bookmarks i x).
Qed.


(** X20. When the title lookup fails on the server, the add form does not
    stay empty: for a form with a valid url and no title, the metadata
    route answers with the title "Unable to fetch title", the client takes
    it for a page title, and [handleUrlBlur] writes it into the title
    input. *)
Theorem failed_lookup_fills_title {rt : Runtime} (fd : formData) page :
  fd_url fd ≠ "" →
  fd_title fd = "" →
  URL_parses (JStr (fd_url fd)) = true →
  fetch_failed page →
  get_bookmarks_metadata (Some (JStr (fd_url fd))) page
  = Success 200 (Title "Unable to fetch title")
  ∧ handleUrlBlur (ReplyOk "Unable to fetch title") fd
    = FormData (fd_url fd) "Unable to fetch title" (fd_description fd)
        (fd_tags fd).
Proof.
  intros Hu Ht Hv Hf. split.
  - unfold get_bookmarks_metadata, isValidUrl. simpl.
    apply String.eqb_neq in Hu. rewrite Hu, Hv. simpl.
    by rewrite (fetch_failed_null page Hf).
  - unfold handleUrlBlur. apply String.eqb_neq in Hu. rewrite Hu, Ht, Hv.
    reflexivity.
Qed.

(** * The further properties on concrete requests *)

Lemma sample_ids_distinct : NoDup (ids_of (seed Sample.ids Sample.times)).
Proof. apply (@bool_decide_unpack _ (NoDup_dec _)). vm_compute. exact I. Qed.

Lemma sample_seed_lacks (id : string) :
  id ∉ ["id-0"; "id-1"; "id-2"; "id-3"; "id-4"] →
  id ∉ ids_of (seed Sample.ids Sample.times).
Proof. intros Hid. exact Hid. Qed.

(** X1 on a create whose tags hold a number: answered 500, store as it
    was. *)
Lemma failed_request_mutates_nothing_witness :
  let store := seed Sample.ids Sample.times in
  let req := Create "u" "2024-01-02T00:00:00.000Z"
               (JObj [("tags", JArr [JNum 1%float])]) in
  status_of (handle (rt:=Sample.runtime) req store).1 = 500
  ∧ (handle (rt:=Sample.runtime) req store).2 = store.
Proof.
  intros store req. split; [reflexivity|].
  apply (failed_request_mutates_nothing (rt:=Sample.runtime) req store);
    discriminate.
Defined.

(** X2 on the seeded store: the third bookmark is deleted. *)
Lemma delete_removes_first_match_witness :
  let store := seed Sample.ids Sample.times in
  "id-2" ∈ ids_of store
  ∧ ∃ old, (delete_bookmarks_id "id-2" store).1 = Success 200 (One old)
           ∧ bk_id old = "id-2"
           ∧ length (delete_bookmarks_id "id-2" store).2 = 4.
Proof.
  intros store.
  assert ("id-2" ∈ ids_of store) as Hin by (vm_compute; set_solver).
  split; [exact Hin|].
  destruct (delete_removes_first_match "id-2" store Hin)
    as (i & old & _ & Hid & _ & Hdel & Hlen & _).
  exists old. rewrite Hdel. simpl. split; [done|]. split; [done|].
  change (length store) with 5 in Hlen. lia.
Defined.

(** X3 on the seeded store and a create with a new id. *)
Lemma ids_stay_unique_witness :
  let store := seed Sample.ids Sample.times in
  let req := Create "u" "2024-01-02T00:00:00.000Z"
               (JObj [("url", JStr "https://example.com");
                      ("title", JStr "Example")]) in
  NoDup (ids_of store)
  ∧ fresh req store
  ∧ length (handle (rt:=Sample.runtime) req store).2 = 6
  ∧ NoDup (ids_of (handle (rt:=Sample.runtime) req store).2).
Proof.
  intros store req.
  assert (fresh req store) as Hfresh.
  { apply sample_seed_lacks. set_solver. }
  split; [apply sample_ids_distinct|]. split; [exact Hfresh|].
  split; [reflexivity|].
  apply (ids_stay_unique (rt:=Sample.runtime) req store sample_ids_distinct Hfresh).
Defined.

(** X4 on the seeded store. *)
Lemma create_then_delete_restores_witness :
  let store := seed Sample.ids Sample.times in
  let body := JObj [("url", JStr "https://example.com");
                    ("title", JStr "Example")] in
  let b := Bookmark "u" (Some (JStr "https://example.com"))
             (Some (JStr "Example")) None None "2024-01-02T00:00:00.000Z" in
  post_bookmarks (rt:=Sample.runtime) "u" "2024-01-02T00:00:00.000Z" body store
  = (Success 201 (One b), store ++ [b])
  ∧ delete_bookmarks_id "u" (store ++ [b]) = (Success 200 (One b), store).
Proof.
  intros store body b.
  assert (post_bookmarks (rt:=Sample.runtime) "u" "2024-01-02T00:00:00.000Z"
            body store = (Success 201 (One b), store ++ [b])) as E by reflexivity.
  split; [exact E|].
  apply (create_then_delete_restores (rt:=Sample.runtime) _ _ _ _ _ _ E).
  apply sample_seed_lacks. set_solver.
Defined.

(** X5 on the seeded store: a new description for the second bookmark,
    sent twice. *)
Lemma update_is_idempotent_witness :
  let store := seed Sample.ids Sample.times in
  let body := JObj [("description", JStr "x")] in
  let b' := Bookmark "id-1" (Some (JStr "https://nodejs.org"))
              (Some (JStr "Node.js")) (Some (JStr "x"))
              (Some (JArr [JStr "nodejs"; JStr "javascript"; JStr "backend"]))
              "2024-01-01T00:00:00.000Z" in
  put_bookmarks_id (rt:=Sample.runtime) "id-1" body store
  = (Success 200 (One b'), <[1 := b']> store)
  ∧ put_bookmarks_id (rt:=Sample.runtime) "id-1" body (<[1 := b']> store)
    = (Success 200 (One b'), <[1 := b']> store).
Proof.
  intros store body b'.
  assert (put_bookmarks_id (rt:=Sample.runtime) "id-1" body store
          = (Success 200 (One b'), <[1 := b']> store)) as E by reflexivity.
  split; [exact E|].
  apply (update_is_idempotent (rt:=Sample.runtime) _ _ _ _ _ E).
Defined.

(** X7 on the seeded store, for the filter of [?tag=a&tag=b]. *)
Lemma list_with_nonstring_filter_witness :
  let t := JArr [JStr "a"; JStr "b"] in
  truthy t = true
  ∧ get_bookmarks (rt:=Sample.runtime) (Some t) (seed Sample.ids Sample.times)
    = Failure 500 "Internal server error"
  ∧ get_bookmarks (rt:=Sample.runtime) (Some t) [] = Success 200 (Many []).
Proof.
  intros t. split; [reflexivity|].
  split;
    apply (list_with_nonstring_filter (rt:=Sample.runtime) t);
    solve [reflexivity | discriminate].
Defined.

(** X8 on the seeded store, for the filters React and REACT. *)
Lemma list_ignores_case_of_filter_witness :
  let store := seed Sample.ids Sample.times in
  get_bookmarks (rt:=Sample.runtime) (Some (JStr "React")) store
  = get_bookmarks (rt:=Sample.runtime) (Some (JStr "REACT")) store
  ∧ length (returned (get_bookmarks (rt:=Sample.runtime)
                        (Some (JStr "REACT")) store)) = 1.
Proof.
  intros store. split; [|reflexivity].
  apply (list_ignores_case_of_filter (rt:=Sample.runtime) "React" "REACT" store);
    [reflexivity | discriminate | discriminate].
Defined.

(** X9 after a create and a delete on the seeded store. *)
Lemma reachable_list_never_fails_witness :
  let store :=
    foldl (λ s req, step (rt:=Sample.runtime) req s)
      (seed Sample.ids Sample.times)
      [Create "u" "2024-01-02T00:00:00.000Z"
         (JObj [("url", JStr "https://example.com"); ("title", JStr "Example");
                ("tags", JArr [JStr "frontend"])]);
       Delete "id-0"] in
  ∃ r, get_bookmarks (rt:=Sample.runtime) (Some (JStr "Frontend")) store
       = Success 200 (Many r)
       ∧ r `sublist_of` store.
Proof.
  intros store.
  apply (reachable_list_never_fails (rt:=Sample.runtime) Sample.ids Sample.times).
  apply reachable_trace, reach_seed.
Defined.

Lemma sample_seed_entries :
  Forall (entry_ok (rt:=Sample.runtime)) (seed Sample.ids Sample.times).
Proof. repeat apply Forall_cons_2; try apply Forall_nil_2; by repeat split. Qed.

(** X11 on the seeded store and an update of the first bookmark's title. *)
Lemma requests_keep_field_rules_witness :
  let store := seed Sample.ids Sample.times in
  let req := Update "id-0" (JObj [("title", JStr "React")]) in
  Forall (entry_ok (rt:=Sample.runtime)) store
  ∧ bk_title <$> (handle (rt:=Sample.runtime) req store).2 !! 0
    = Some (Some (JStr "React"))
  ∧ Forall (entry_ok (rt:=Sample.runtime)) (handle (rt:=Sample.runtime) req store).2.
Proof.
  intros store req. split; [apply sample_seed_entries|]. split; [reflexivity|].
  apply (requests_keep_field_rules (rt:=Sample.runtime) req store).
  apply sample_seed_entries.
Defined.

(** X16 on a form with spaces around the title and the tags. *)
Lemma checked_form_is_created_witness :
  let body := JObj [("url", JStr "https://example.com");
                    ("title", JStr " Example ");
                    ("tags", JArr [JStr "react"; JStr "node"])] in
  handleSubmit (rt:=SampleClient.runtime) SampleClient.form = Some body
  ∧ ∃ b, post_bookmarks (rt:=SampleClient.runtime) "u" "2024-01-02T00:00:00.000Z"
           body [] = (Success 201 (One b), [b])
         ∧ bk_tags b = Some (JArr [JStr "react"; JStr "node"]).
Proof.
  intros body.
  assert (handleSubmit (rt:=SampleClient.runtime) SampleClient.form = Some body)
    as E by reflexivity.
  split; [exact E|].
  destruct (checked_form_is_created (rt:=SampleClient.runtime) SampleClient.form
              body "u" "2024-01-02T00:00:00.000Z" [] eq_refl eq_refl E)
    as (b & Hpost & _ & _ & _ & Htags).
  exists b. split; [exact Hpost | exact Htags].
Defined.


(** X18 on a cache that holds the seeded store in reverse order. *)
Lemma cache_mirrors_store_witness :
  let store := seed Sample.ids Sample.times in
  let st := App (reverse store) "" None 1 in
  app_bookmarks st ≡ₚ store
  ∧ NoDup (ids_of store)
  ∧ ∃ old, delete_bookmarks_id "id-3" store = (Success 200 (One old), delete 3 store)
           ∧ app_bookmarks (handleDeleteBookmark "id-3" true (ReplyOk old) st)
             ≡ₚ delete 3 store.
Proof.
  intros store st.
  assert (app_bookmarks st ≡ₚ store) as Hperm by apply reverse_Permutation.
  split; [exact Hperm|]. split; [apply sample_ids_distinct|].
  eexists. split; [reflexivity|].
  destruct (cache_mirrors_store (rt:=Sample.runtime) st store Hperm
              sample_ids_distinct) as (_ & _ & Hdel & _).
  apply Hdel. reflexivity.
Defined.

(** X20 on the form with the url https://example.com and a fetch that
    throws. *)
Lemma failed_lookup_fills_title_witness :
  let fd := FormData "https://example.com" "" "" "" in
  get_bookmarks_metadata (rt:=Sample.runtime) (Some (JStr "https://example.com"))
    FetchThrows = Success 200 (Title "Unable to fetch title")
  ∧ fd_title (handleUrlBlur (rt:=Sample.runtime)
                (ReplyOk "Unable to fetch title") fd)
    = "Unable to fetch title".
Proof.
  intros fd.
  destruct (failed_lookup_fills_title (rt:=Sample.runtime) fd FetchThrows)
    as [Hserver Hform]; [discriminate | reflexivity | reflexivity | exact I |].
  split; [exact Hserver|]. by rewrite Hform.
Defined.
